(** * UrlShortener: a shallow embedding of the short-code codec, the
      canonicalizer, the abuse guard, the redirect and shorten views and the
      click pipeline, with the properties of the specification checked
      against it.

    Python values are modelled as follows.
    - [bytes] is a list of [Byte.byte];
    - [str] is a list of Unicode code points (numbers in [N]);
    - an exception is a value of [pyerr]; code that may raise returns a
      [result];
    - dictionaries, the Django cache and the Redis hash are [gmap]s. *)

From Stdlib Require Import NArith ZArith Lia List String Ascii Bool.
From Stdlib.Strings Require Import Byte.
From stdpp Require Import base option list gmap strings.

Open Scope N_scope.

(** ** Exceptions and results *)

Inductive pyerr : Type :=
| ValueError (msg : string)
| UnicodeEncodeError
| UnicodeDecodeError
| BinasciiError (msg : string)
| TypeError (msg : string)
| AttributeError (msg : string)
| KeyError (msg : string)
| ZlibError (msg : string)
| JSONDecodeError
| RedisError (msg : string)
| DatabaseError (msg : string).

(** [except ValueError]: the Unicode errors and [binascii.Error] are
    subclasses of [ValueError], and so is [json.JSONDecodeError]. *)
Definition is_ValueError (e : pyerr) : bool :=
  match e with
  | ValueError _ | UnicodeEncodeError | UnicodeDecodeError
  | BinasciiError _ | JSONDecodeError => true
  | TypeError _ | AttributeError _ | KeyError _ | ZlibError _
  | RedisError _ | DatabaseError _ => false
  end.

(** [str(e)] *)
Definition exn_message (e : pyerr) : string :=
  match e with
  | ValueError m | BinasciiError m | TypeError m | AttributeError m
  | KeyError m | ZlibError m | RedisError m | DatabaseError m => m
  | UnicodeEncodeError => "'utf-8' codec can't encode character: surrogates not allowed"
  | UnicodeDecodeError => "'utf-8' codec can't decode byte: invalid start byte"
  | JSONDecodeError => "Expecting value"
  end.

Inductive result (A : Type) : Type :=
| Ok (a : A)
| Raise (e : pyerr).
Arguments Ok {A} a.
Arguments Raise {A} e.

Definition rbind {A B} (r : result A) (k : A -> result B) : result B :=
  match r with
  | Ok a => k a
  | Raise e => Raise e
  end.

Definition rmap {A B} (f : A -> B) (r : result A) : result B :=
  rbind r (fun a => Ok (f a)).

Notation "x <- r ;; k" := (rbind r (fun x => k))
  (at level 100, r at next level, k at level 200, right associativity).

(** ** Bytes and strings *)

Abbreviation bytes := (list byte).
Abbreviation str := (list N).

Definition byte_of (n : N) : byte :=
  match Byte.of_N n with
  | Some b => b
  | None => x00
  end.

(** A Rocq literal as a Python [str] / [bytes] literal. *)
Definition lit (s : string) : str :=
  map (fun a => N_of_ascii a) (list_ascii_of_string s).

Definition blit (s : string) : bytes :=
  map byte_of_ascii (list_ascii_of_string s).

Definition str_eqb (a b : str) : bool := bool_decide (a = b).

(** ** UTF-8: [str.encode()] and [bytes.decode()] *)

Definition utf8_encode_char (c : N) : option bytes :=
  if c <? 0x80 then Some [byte_of c]
  else if c <? 0x800 then
    Some [byte_of (0xC0 + c / 64); byte_of (0x80 + c mod 64)]
  else if c <? 0x10000 then
    if (0xD800 <=? c) && (c <=? 0xDFFF) then None
    else Some [byte_of (0xE0 + c / 4096);
               byte_of (0x80 + (c / 64) mod 64);
               byte_of (0x80 + c mod 64)]
  else if c <? 0x110000 then
    Some [byte_of (0xF0 + c / 262144);
          byte_of (0x80 + (c / 4096) mod 64);
          byte_of (0x80 + (c / 64) mod 64);
          byte_of (0x80 + c mod 64)]
  else None.

(** [s.encode()]: raises [UnicodeEncodeError] on a lone surrogate. *)
Fixpoint str_encode (s : str) : result bytes :=
  match s with
  | [] => Ok []
  | c :: s' =>
      match utf8_encode_char c with
      | None => Raise UnicodeEncodeError
      | Some bs => r <- str_encode s' ;; Ok (bs ++ r)
      end
  end.

Definition is_cont (n : N) : bool := (0x80 <=? n) && (n <=? 0xBF).

(** [b.decode()]: the strict UTF-8 decoder (shortest form only, no
    surrogates, nothing above U+10FFFF). *)
Fixpoint bytes_decode (bs : bytes) : result str :=
  match bs with
  | [] => Ok []
  | b0 :: r0 =>
      let n0 := Byte.to_N b0 in
      if n0 <? 0x80 then s <- bytes_decode r0 ;; Ok (n0 :: s)
      else match r0 with
      | [] => Raise UnicodeDecodeError
      | b1 :: r1 =>
          let n1 := Byte.to_N b1 in
          if (0xC2 <=? n0) && (n0 <=? 0xDF) then
            if is_cont n1 then
              s <- bytes_decode r1 ;;
              Ok (((n0 - 0xC0) * 64 + (n1 - 0x80)) :: s)
            else Raise UnicodeDecodeError
          else match r1 with
          | [] => Raise UnicodeDecodeError
          | b2 :: r2 =>
              let n2 := Byte.to_N b2 in
              if (0xE0 <=? n0) && (n0 <=? 0xEF) then
                if is_cont n1 && is_cont n2
                   && negb ((n0 =? 0xE0) && (n1 <? 0xA0))
                   && negb ((n0 =? 0xED) && (0x9F <? n1)) then
                  s <- bytes_decode r2 ;;
                  Ok (((n0 - 0xE0) * 4096 + (n1 - 0x80) * 64 + (n2 - 0x80)) :: s)
                else Raise UnicodeDecodeError
              else match r2 with
              | [] => Raise UnicodeDecodeError
              | b3 :: r3 =>
                  let n3 := Byte.to_N b3 in
                  if (0xF0 <=? n0) && (n0 <=? 0xF4) then
                    if is_cont n1 && is_cont n2 && is_cont n3
                       && negb ((n0 =? 0xF0) && (n1 <? 0x90))
                       && negb ((n0 =? 0xF4) && (0x8F <? n1)) then
                      s <- bytes_decode r3 ;;
                      Ok (((n0 - 0xF0) * 262144 + (n1 - 0x80) * 4096
                           + (n2 - 0x80) * 64 + (n3 - 0x80)) :: s)
                    else Raise UnicodeDecodeError
                  else Raise UnicodeDecodeError
              end
          end
      end
  end.

(** [s.encode('ascii')] as [base64] applies it to a [str] argument. *)
Fixpoint ascii_encode (s : str) : result bytes :=
  match s with
  | [] => Ok []
  | c :: s' =>
      if c <? 0x80 then r <- ascii_encode s' ;; Ok (byte_of c :: r)
      else Raise (ValueError "string argument should contain only ASCII characters")
  end.

(** *** Facts on bytes *)

Lemma to_N_byte_of (n : N) : n < 256 -> Byte.to_N (byte_of n) = n.
Proof.
  intros Hn. unfold byte_of.
  destruct (Byte.of_N n) as [b|] eqn:E.
  - by apply Byte.to_of_N.
  - apply Byte.of_N_None_iff in E. lia.
Qed.

Lemma byte_of_to_N (b : byte) : byte_of (Byte.to_N b) = b.
Proof. unfold byte_of. by rewrite Byte.of_to_N. Qed.

Lemma to_N_lt (b : byte) : Byte.to_N b < 256.
Proof. pose proof (Byte.to_N_bounded b). lia. Qed.

(** Linear arithmetic with division and remainder by constants, and
    boolean tests decided by it. *)
Ltac div_mod_lia := zify; Z.to_euclidean_division_equations; lia.

Ltac bool_arith :=
  unfold is_cont;
  repeat (rewrite ?andb_true_iff, ?negb_true_iff, ?andb_false_iff,
            ?N.leb_le, ?N.ltb_lt, ?N.eqb_eq, ?N.leb_gt, ?N.ltb_ge, ?N.eqb_neq);
  div_mod_lia.

Ltac decide_test b v := replace b with v by (symmetry; bool_arith).

(** *** UTF-8 round trip *)

Lemma bytes_decode_encode_char (c : N) (bs rest : bytes) :
  utf8_encode_char c = Some bs ->
  bytes_decode (bs ++ rest) = (s <- bytes_decode rest ;; Ok (c :: s)).
Proof.
  unfold utf8_encode_char. intros H.
  destruct (c <? 0x80) eqn:E1.
  { injection H as <-. simpl.
    rewrite to_N_byte_of by (apply N.ltb_lt in E1; lia).
    by rewrite E1. }
  apply N.ltb_ge in E1.
  destruct (c <? 0x800) eqn:E2.
  { apply N.ltb_lt in E2. injection H as <-. simpl.
    rewrite !to_N_byte_of by div_mod_lia.
    decide_test (0xC0 + c / 64 <? 0x80) false.
    decide_test ((0xC2 <=? 0xC0 + c / 64) && (0xC0 + c / 64 <=? 0xDF)) true.
    decide_test (is_cont (0x80 + c mod 64)) true.
    replace ((0xC0 + c / 64 - 0xC0) * 64 + (0x80 + c mod 64 - 0x80)) with c
      by div_mod_lia.
    done. }
  apply N.ltb_ge in E2.
  destruct (c <? 0x10000) eqn:E3.
  { apply N.ltb_lt in E3.
    destruct ((0xD800 <=? c) && (c <=? 0xDFFF)) eqn:E4; [done|].
    assert (c < 0xD800 \/ 0xDFFF < c) as Hs
      by (revert E4; bool_arith).
    injection H as <-. simpl.
    rewrite !to_N_byte_of by div_mod_lia.
    set (n0 := 0xE0 + c / 4096). set (n1 := 0x80 + (c / 64) mod 64).
    set (n2 := 0x80 + c mod 64).
    decide_test (n0 <? 0x80) false.
    decide_test ((0xC2 <=? n0) && (n0 <=? 0xDF)) false.
    decide_test ((0xE0 <=? n0) && (n0 <=? 0xEF)) true.
    decide_test (is_cont n1 && is_cont n2
                 && negb ((n0 =? 0xE0) && (n1 <? 0xA0))
                 && negb ((n0 =? 0xED) && (0x9F <? n1))) true.
    replace ((n0 - 0xE0) * 4096 + (n1 - 0x80) * 64 + (n2 - 0x80)) with c
      by (subst n0 n1 n2; div_mod_lia).
    done. }
  apply N.ltb_ge in E3.
  destruct (c <? 0x110000) eqn:E5; [|done].
  apply N.ltb_lt in E5. injection H as <-. simpl.
  rewrite !to_N_byte_of by div_mod_lia.
  set (n0 := 0xF0 + c / 262144). set (n1 := 0x80 + (c / 4096) mod 64).
  set (n2 := 0x80 + (c / 64) mod 64). set (n3 := 0x80 + c mod 64).
  decide_test (n0 <? 0x80) false.
  decide_test ((0xC2 <=? n0) && (n0 <=? 0xDF)) false.
  decide_test ((0xE0 <=? n0) && (n0 <=? 0xEF)) false.
  decide_test ((0xF0 <=? n0) && (n0 <=? 0xF4)) true.
  decide_test (is_cont n1 && is_cont n2 && is_cont n3
               && negb ((n0 =? 0xF0) && (n1 <? 0x90))
               && negb ((n0 =? 0xF4) && (0x8F <? n1))) true.
  replace ((n0 - 0xF0) * 262144 + (n1 - 0x80) * 4096
           + (n2 - 0x80) * 64 + (n3 - 0x80)) with c
    by (subst n0 n1 n2 n3; div_mod_lia).
  done.
Qed.

(** Decoding what [str.encode()] produced gives the string back. *)
Lemma bytes_decode_str_encode (s : str) (bs : bytes) :
  str_encode s = Ok bs -> bytes_decode bs = Ok s.
Proof.
  revert bs. induction s as [|c s IH]; intros bs H; simpl in H.
  - by injection H as <-.
  - destruct (utf8_encode_char c) as [cb|] eqn:Ec; [|done].
    destruct (str_encode s) as [r|] eqn:Er; [|done].
    simpl in H. injection H as <-.
    rewrite (bytes_decode_encode_char c cb r Ec), (IH r eq_refl). done.
Qed.

(** ** Base64: [base64.urlsafe_b64encode] and [base64.urlsafe_b64decode]

    [binascii.b2a_base64] and [binascii.a2b_base64] (the lenient decoder
    that [base64.b64decode] calls with [validate=False]) with the
    translation of the URL-safe alphabet around them. *)

Definition PAD : byte := "=".

(** [table_b2a_base64] *)
Definition b64_char (s : N) : byte :=
  byte_of (if s <? 26 then 65 + s
           else if s <? 52 then 71 + s
           else if s <? 62 then s - 4
           else if s =? 62 then 43 else 47).

(** [table_a2b_base64]; [None] stands for the entries that are not
    base64 digits. *)
Definition b64_value (b : byte) : option N :=
  let n := Byte.to_N b in
  if (65 <=? n) && (n <=? 90) then Some (n - 65)
  else if (97 <=? n) && (n <=? 122) then Some (n - 71)
  else if (48 <=? n) && (n <=? 57) then Some (n + 4)
  else if n =? 43 then Some 62
  else if n =? 47 then Some 63
  else None.

Fixpoint b2a_base64 (bs : bytes) : bytes :=
  match bs with
  | [] => []
  | [b0] =>
      let x0 := Byte.to_N b0 in
      [b64_char (x0 / 4); b64_char ((x0 mod 4) * 16); PAD; PAD]
  | [b0; b1] =>
      let x0 := Byte.to_N b0 in
      let x1 := Byte.to_N b1 in
      [b64_char (x0 / 4); b64_char ((x0 mod 4) * 16 + x1 / 16);
       b64_char ((x1 mod 16) * 4); PAD]
  | b0 :: b1 :: b2 :: r =>
      let x0 := Byte.to_N b0 in
      let x1 := Byte.to_N b1 in
      let x2 := Byte.to_N b2 in
      b64_char (x0 / 4) :: b64_char ((x0 mod 4) * 16 + x1 / 16)
      :: b64_char ((x1 mod 16) * 4 + x2 / 64) :: b64_char (x2 mod 64)
      :: b2a_base64 r
  end.

(** The decoding loop: [quad_pos] is the position in the current group of
    four digits, [leftchar] the bits left over from the previous digit and
    [pads] the number of [=] seen since the last digit. Characters outside
    the alphabet are skipped; a complete pad sequence ends the input. *)
Fixpoint a2b_base64 (inp : bytes) (quad_pos : nat) (leftchar : N) (pads : nat)
  : result bytes :=
  match inp with
  | [] =>
      match quad_pos with
      | O => Ok []
      | S O => Raise (BinasciiError
          "Invalid base64-encoded string: number of data characters cannot be 1 more than a multiple of 4")
      | _ => Raise (BinasciiError "Incorrect padding")
      end
  | ch :: rest =>
      if Byte.to_N ch =? 61 then
        if Nat.leb 2 quad_pos then
          if Nat.leb 4 (quad_pos + S pads) then Ok []
          else a2b_base64 rest quad_pos leftchar (S pads)
        else a2b_base64 rest quad_pos leftchar pads
      else
        match b64_value ch with
        | None => a2b_base64 rest quad_pos leftchar pads
        | Some v =>
            match quad_pos with
            | O => a2b_base64 rest 1 v 0
            | S O =>
                r <- a2b_base64 rest 2 (v mod 16) 0 ;;
                Ok (byte_of (leftchar * 4 + v / 16) :: r)
            | S (S O) =>
                r <- a2b_base64 rest 3 (v mod 4) 0 ;;
                Ok (byte_of (leftchar * 16 + v / 4) :: r)
            | _ =>
                r <- a2b_base64 rest 0 0 0 ;;
                Ok (byte_of (leftchar * 64 + v) :: r)
            end
        end
  end.

(** [_urlsafe_encode_translation] and [_urlsafe_decode_translation] *)
Definition urlsafe_encode_translation (b : byte) : byte :=
  if Byte.to_N b =? 43 then "-"%byte
  else if Byte.to_N b =? 47 then "_"%byte else b.

Definition urlsafe_decode_translation (b : byte) : byte :=
  if Byte.to_N b =? 45 then "+"%byte
  else if Byte.to_N b =? 95 then "/"%byte else b.

Definition urlsafe_b64encode (s : bytes) : bytes :=
  map urlsafe_encode_translation (b2a_base64 s).

Definition urlsafe_b64decode (s : bytes) : result bytes :=
  a2b_base64 (map urlsafe_decode_translation s) 0 0 0.

(** [base64.urlsafe_b64decode] applied to a [str]:
    [_bytes_from_decode_data] encodes it as ASCII first. *)
Definition urlsafe_b64decode_str (s : str) : result bytes :=
  b <- ascii_encode s ;; urlsafe_b64decode b.

(** [s.rstrip(c)] for a one-character argument. *)
Fixpoint rstrip (c : N) (s : str) : str :=
  match s with
  | [] => []
  | x :: r =>
      match rstrip c r with
      | [] => if x =? c then [] else [x]
      | r' => x :: r'
      end
  end.

Example b64_YQ : urlsafe_b64encode (blit "a") = blit "YQ==".
Proof. reflexivity. Qed.
Example b64_abc : urlsafe_b64encode (blit "abc") = blit "YWJj".
Proof. reflexivity. Qed.
Example b64_urlsafe : urlsafe_b64encode [xfb; xff] = blit "-_8=".
Proof. reflexivity. Qed.
Example b64d_excess : urlsafe_b64decode (blit "YWJj====") = Ok (blit "abc").
Proof. reflexivity. Qed.
Example b64d_two : urlsafe_b64decode (blit "YQ==") = Ok (blit "a").
Proof. reflexivity. Qed.
Example b64d_short : urlsafe_b64decode (blit "YQ=") = Raise (BinasciiError "Incorrect padding").
Proof. reflexivity. Qed.
Example rstrip_ex : rstrip 61 (lit "YQ==") = lit "YQ".
Proof. reflexivity. Qed.

(** *** Base64 round trip *)

Lemma N_forall_below (n : nat) (p : N -> bool) :
  forallb p (map N.of_nat (seq 0 n)) = true ->
  forall s, s < N.of_nat n -> p s = true.
Proof.
  intros H s Hs. rewrite forallb_forall in H. apply H.
  apply in_map_iff. exists (N.to_nat s). split; [lia|].
  apply in_seq. lia.
Qed.

Definition url_digit (s : N) : byte := urlsafe_encode_translation (b64_char s).

Definition digit_ok (s : N) : bool :=
  let d := urlsafe_decode_translation (url_digit s) in
  negb (Byte.to_N d =? 61)
  && bool_decide (b64_value d = Some s)
  && (Byte.to_N (url_digit s) <? 128)
  && negb (Byte.to_N (url_digit s) =? 61).

Lemma digit_ok_all (s : N) : s < 64 -> digit_ok s = true.
Proof. apply (N_forall_below 64). vm_compute. reflexivity. Qed.

Lemma url_digit_not_pad (s : N) : s < 64 -> Byte.to_N (url_digit s) <> 61.
Proof.
  intros H. apply digit_ok_all in H. unfold digit_ok in H.
  rewrite !andb_true_iff, !negb_true_iff, !N.eqb_neq in H. tauto.
Qed.

Lemma url_digit_ascii (s : N) : s < 64 -> Byte.to_N (url_digit s) < 128.
Proof.
  intros H. apply digit_ok_all in H. unfold digit_ok in H.
  rewrite !andb_true_iff, N.ltb_lt in H. tauto.
Qed.

(** One digit of the alphabet, as the decoding loop consumes it. *)
Lemma a2b_base64_digit (s : N) (rest : bytes) (quad_pos : nat) (leftchar : N)
    (pads : nat) :
  s < 64 ->
  a2b_base64 (urlsafe_decode_translation (url_digit s) :: rest)
             quad_pos leftchar pads =
  match quad_pos with
  | O => a2b_base64 rest 1 s 0
  | S O => r <- a2b_base64 rest 2 (s mod 16) 0 ;;
           Ok (byte_of (leftchar * 4 + s / 16) :: r)
  | S (S O) => r <- a2b_base64 rest 3 (s mod 4) 0 ;;
               Ok (byte_of (leftchar * 16 + s / 4) :: r)
  | _ => r <- a2b_base64 rest 0 0 0 ;;
         Ok (byte_of (leftchar * 64 + s) :: r)
  end.
Proof.
  intros H. apply digit_ok_all in H. unfold digit_ok in H.
  rewrite !andb_true_iff, !negb_true_iff, bool_decide_eq_true in H.
  destruct H as [[[H1 H2] _] _].
  cbn [a2b_base64]. rewrite H1, H2. done.
Qed.

(** The digits of the encoding, without the padding. *)
Fixpoint b64_sextets (bs : bytes) : list N :=
  match bs with
  | [] => []
  | [b0] =>
      let x0 := Byte.to_N b0 in [x0 / 4; (x0 mod 4) * 16]
  | [b0; b1] =>
      let x0 := Byte.to_N b0 in
      let x1 := Byte.to_N b1 in
      [x0 / 4; (x0 mod 4) * 16 + x1 / 16; (x1 mod 16) * 4]
  | b0 :: b1 :: b2 :: r =>
      let x0 := Byte.to_N b0 in
      let x1 := Byte.to_N b1 in
      let x2 := Byte.to_N b2 in
      x0 / 4 :: (x0 mod 4) * 16 + x1 / 16
      :: (x1 mod 16) * 4 + x2 / 64 :: x2 mod 64 :: b64_sextets r
  end.

Fixpoint b64_npad (n : nat) : nat :=
  match n with
  | O => 0
  | S O => 2
  | S (S O) => 1
  | S (S (S n')) => b64_npad n'
  end.

Lemma list_ind3 {A} (P : list A -> Prop) :
  P [] -> (forall x, P [x]) -> (forall x y, P [x; y]) ->
  (forall x y z r, P r -> P (x :: y :: z :: r)) ->
  forall l, P l.
Proof.
  intros H0 H1 H2 H3 l.
  assert (P l /\ (forall x, P (x :: l)) /\ (forall x y, P (x :: y :: l))) as [? _].
  { induction l as [|a l (IH0 & IH1 & IH2)]; [by auto|].
    repeat split; auto. }
  done.
Qed.

Lemma b64_sextets_lt (bs : bytes) : Forall (fun s => s < 64) (b64_sextets bs).
Proof.
  induction bs as [|b0|b0 b1|b0 b1 b2 r IH] using list_ind3; cbn [b64_sextets].
  - constructor.
  - pose proof (to_N_lt b0). repeat constructor; div_mod_lia.
  - pose proof (to_N_lt b0). pose proof (to_N_lt b1).
    repeat constructor; div_mod_lia.
  - pose proof (to_N_lt b0). pose proof (to_N_lt b1). pose proof (to_N_lt b2).
    repeat (constructor; [div_mod_lia|]). done.
Qed.

Lemma urlsafe_b64encode_split (bs : bytes) :
  urlsafe_b64encode bs =
  map url_digit (b64_sextets bs) ++ replicate (b64_npad (length bs)) PAD.
Proof.
  unfold urlsafe_b64encode.
  induction bs as [|b0|b0 b1|b0 b1 b2 r IH] using list_ind3; try done.
  cbn [b2a_base64 b64_sextets map length b64_npad app].
  by rewrite IH.
Qed.

(** Decoding the digits of [bs] followed by at least the padding that the
    encoder would add gives [bs]; further [=] are ignored. *)
Lemma a2b_base64_sextets (bs : bytes) (k : nat) :
  (b64_npad (length bs) <= k)%nat ->
  a2b_base64 (map urlsafe_decode_translation
                (map url_digit (b64_sextets bs) ++ replicate k PAD)) 0 0 0
  = Ok bs.
Proof.
  induction bs as [|b0|b0 b1|b0 b1 b2 r IH] using list_ind3;
    cbn [b64_sextets length b64_npad map app]; intros Hk.
  - clear Hk. induction k as [|k IH]; [done|]. cbn. done.
  - pose proof (to_N_lt b0).
    rewrite !a2b_base64_digit by div_mod_lia.
    destruct k as [|[|k]]; [lia|lia|]. cbn.
    replace (Byte.to_N b0 / 4 * 4 + Byte.to_N b0 mod 4 * 16 / 16)
      with (Byte.to_N b0) by div_mod_lia.
    by rewrite byte_of_to_N.
  - pose proof (to_N_lt b0). pose proof (to_N_lt b1).
    rewrite !a2b_base64_digit by div_mod_lia.
    destruct k as [|k]; [lia|]. cbn.
    replace (Byte.to_N b0 / 4 * 4
             + (Byte.to_N b0 mod 4 * 16 + Byte.to_N b1 / 16) / 16)
      with (Byte.to_N b0) by div_mod_lia.
    replace ((Byte.to_N b0 mod 4 * 16 + Byte.to_N b1 / 16) mod 16 * 16
             + Byte.to_N b1 mod 16 * 4 / 4)
      with (Byte.to_N b1) by div_mod_lia.
    by rewrite !byte_of_to_N.
  - pose proof (to_N_lt b0). pose proof (to_N_lt b1). pose proof (to_N_lt b2).
    rewrite !a2b_base64_digit by div_mod_lia.
    rewrite (IH Hk). cbn.
    replace (Byte.to_N b0 / 4 * 4
             + (Byte.to_N b0 mod 4 * 16 + Byte.to_N b1 / 16) / 16)
      with (Byte.to_N b0) by div_mod_lia.
    replace ((Byte.to_N b0 mod 4 * 16 + Byte.to_N b1 / 16) mod 16 * 16
             + (Byte.to_N b1 mod 16 * 4 + Byte.to_N b2 / 64) / 4)
      with (Byte.to_N b1) by div_mod_lia.
    replace ((Byte.to_N b1 mod 16 * 4 + Byte.to_N b2 / 64) mod 4 * 64
             + Byte.to_N b2 mod 64)
      with (Byte.to_N b2) by div_mod_lia.
    by rewrite !byte_of_to_N.
Qed.

(** [urlsafe_b64decode(urlsafe_b64encode(bs)) == bs] *)
Lemma urlsafe_b64decode_encode (bs : bytes) :
  urlsafe_b64decode (urlsafe_b64encode bs) = Ok bs.
Proof.
  unfold urlsafe_b64decode. rewrite urlsafe_b64encode_split.
  by apply a2b_base64_sextets.
Qed.

(** ** SHA-256 and HMAC: [hmac.new(key, msg, hashlib.sha256).hexdigest()]

    Words are 32-bit numbers in [N]; additions wrap around. *)

Module SHA256.

Definition mask32 : N := 0xFFFFFFFF.
Definition add32 (a b : N) : N := N.land (a + b) mask32.
Definition rotr (n x : N) : N :=
  N.lor (N.shiftr x n) (N.land (N.shiftl x (32 - n)) mask32).
Definition shr (n x : N) : N := N.shiftr x n.
Definition not32 (x : N) : N := N.lxor x mask32.

Definition Ch (x y z : N) : N := N.lxor (N.land x y) (N.land (not32 x) z).
Definition Maj (x y z : N) : N :=
  N.lxor (N.lxor (N.land x y) (N.land x z)) (N.land y z).
Definition Sigma0 (x : N) : N := N.lxor (N.lxor (rotr 2 x) (rotr 13 x)) (rotr 22 x).
Definition Sigma1 (x : N) : N := N.lxor (N.lxor (rotr 6 x) (rotr 11 x)) (rotr 25 x).
Definition sigma0 (x : N) : N := N.lxor (N.lxor (rotr 7 x) (rotr 18 x)) (shr 3 x).
Definition sigma1 (x : N) : N := N.lxor (N.lxor (rotr 17 x) (rotr 19 x)) (shr 10 x).

(** The round constants (the first 32 bits of the fractional parts of the
    cube roots of the first 64 primes), in decimal. *)
Definition K : list N :=
  [1116352408; 1899447441; 3049323471; 3921009573;
   961987163; 1508970993; 2453635748; 2870763221;
   3624381080; 310598401; 607225278; 1426881987;
   1925078388; 2162078206; 2614888103; 3248222580;
   3835390401; 4022224774; 264347078; 604807628;
   770255983; 1249150122; 1555081692; 1996064986;
   2554220882; 2821834349; 2952996808; 3210313671;
   3336571891; 3584528711; 113926993; 338241895;
   666307205; 773529912; 1294757372; 1396182291;
   1695183700; 1986661051; 2177026350; 2456956037;
   2730485921; 2820302411; 3259730800; 3345764771;
   3516065817; 3600352804; 4094571909; 275423344;
   430227734; 506948616; 659060556; 883997877;
   958139571; 1322822218; 1537002063; 1747873779;
   1955562222; 2024104815; 2227730452; 2361852424;
   2428436474; 2756734187; 3204031479; 3329325298].

Definition state : Type := N * N * N * N * N * N * N * N.

Definition H0 : state :=
  (1779033703, 3144134277, 1013904242, 2773480762,
   1359893119, 2600822924, 528734635, 1541459225).

(** Padding: a [1] bit, zeros up to 56 modulo 64, the bit length on 8 bytes. *)
Definition pad (m : bytes) : list N :=
  let l := length m in
  let k := ((64 - (l + 9) mod 64) mod 64)%nat in
  let bits := 8 * N.of_nat l in
  map Byte.to_N m ++ [0x80] ++ replicate k 0
  ++ map (fun i => (bits / 2 ^ (8 * (7 - N.of_nat i))) mod 256) (seq 0 8).

Fixpoint words (bs : list N) : list N :=
  match bs with
  | a :: b :: c :: d :: r => (a * 16777216 + b * 65536 + c * 256 + d) :: words r
  | _ => []
  end.

(** The message schedule: [n] more words after those in [w]. *)
Fixpoint schedule (n : nat) (w : list N) : list N :=
  match n with
  | O => w
  | S n' =>
      let t := length w in
      let x := add32 (add32 (sigma1 (nth (t - 2) w 0)) (nth (t - 7) w 0))
                     (add32 (sigma0 (nth (t - 15) w 0)) (nth (t - 16) w 0)) in
      schedule n' (w ++ [x])
  end.

Definition round (s : state) (kw : N * N) : state :=
  let '(a, b, c, d, e, f, g, h) := s in
  let t1 := add32 (add32 (add32 h (Sigma1 e)) (add32 (Ch e f g) kw.1)) kw.2 in
  let t2 := add32 (Sigma0 a) (Maj a b c) in
  (add32 t1 t2, a, b, c, add32 d t1, e, f, g).

Definition compress (s : state) (block : list N) : state :=
  let w := schedule 48 block in
  let '(a, b, c, d, e, f, g, h) := fold_left round (combine K w) s in
  let '(a0, b0, c0, d0, e0, f0, g0, h0) := s in
  (add32 a0 a, add32 b0 b, add32 c0 c, add32 d0 d,
   add32 e0 e, add32 f0 f, add32 g0 g, add32 h0 h).

Fixpoint blocks (n : nat) (ws : list N) (s : state) : state :=
  match n with
  | O => s
  | S n' => blocks n' (drop 16 ws) (compress s (take 16 ws))
  end.

Definition word_bytes (w : N) : bytes :=
  [byte_of (w / 16777216 mod 256); byte_of (w / 65536 mod 256);
   byte_of (w / 256 mod 256); byte_of (w mod 256)].

Definition digest_of (s : state) : bytes :=
  let '(a, b, c, d, e, f, g, h) := s in
  word_bytes a ++ word_bytes b ++ word_bytes c ++ word_bytes d
  ++ word_bytes e ++ word_bytes f ++ word_bytes g ++ word_bytes h.

Definition sha256 (m : bytes) : bytes :=
  let ws := words (pad m) in
  digest_of (blocks (length ws / 16) ws H0).

Definition xor_byte (c : N) (b : byte) : byte := byte_of (N.lxor (Byte.to_N b) c).

(** HMAC with a 64-byte block: a longer key is hashed first. *)
Definition hmac (key msg : bytes) : bytes :=
  let key1 := if Nat.ltb 64 (length key) then sha256 key else key in
  let key2 := key1 ++ replicate (64 - length key1) x00 in
  sha256 (map (xor_byte 0x5c) key2 ++ sha256 (map (xor_byte 0x36) key2 ++ msg)).

Definition hex_digit (d : N) : N := if d <? 10 then 48 + d else 87 + d.

Fixpoint hex (bs : bytes) : str :=
  match bs with
  | [] => []
  | b :: r => hex_digit (Byte.to_N b / 16) :: hex_digit (Byte.to_N b mod 16) :: hex r
  end.

Definition hmac_hexdigest (key msg : bytes) : str := hex (hmac key msg).

Example sha256_abc :
  hex (sha256 (blit "abc")) =
  lit "ba7816bf8f01cfea414140de5dae2223b00361a396177a9cb410ff61f20015ad".
Proof. vm_compute. reflexivity. Qed.

Example sha256_empty :
  hex (sha256 []) =
  lit "e3b0c44298fc1c149afbf4c8996fb92427ae41e4649b934ca495991b7852b855".
Proof. vm_compute. reflexivity. Qed.

Example sha256_two_blocks :
  hex (sha256 (blit "abcdbcdecdefdefgefghfghighijhijkijkljklmklmnlmnomnopnopq")) =
  lit "248d6a61d20638b8e5c026930c3e6039a33ce45964ff2167f6ecedd419db06c1".
Proof. vm_compute. reflexivity. Qed.

Example hmac_fox :
  hmac_hexdigest (blit "key") (blit "The quick brown fox jumps over the lazy dog") =
  lit "f7bc83f430538424b13298e6aa6fb143ef4d59a14946175997479dbc2d1a3cd8".
Proof. vm_compute. reflexivity. Qed.

Lemma digest_of_length (s : state) : length (digest_of s) = 32%nat.
Proof. by destruct s as [[[[[[[a b] c] d] e] f] g] h]. Qed.

Lemma hex_length (bs : bytes) : length (hex bs) = (2 * length bs)%nat.
Proof. induction bs as [|b r IH]; simpl; [done|]. rewrite IH. lia. Qed.

Lemma hmac_hexdigest_length (key msg : bytes) :
  length (hmac_hexdigest key msg) = 64%nat.
Proof.
  unfold hmac_hexdigest, hmac, sha256 at 1.
  by rewrite hex_length, digest_of_length.
Qed.

Lemma hex_digit_ascii (d : N) : d < 16 -> hex_digit d < 128.
Proof. unfold hex_digit. destruct (d <? 10); lia. Qed.

End SHA256.

Example hmac_long_key :
  SHA256.hmac_hexdigest (replicate 100 "k"%byte) (blit "msg") =
  lit "bd56a1782c2830e8abc6ed866a57a1230661e650b84c62f7ee3accc5fa5af491".
Proof. vm_compute. reflexivity. Qed.

(** ** The codec: [ShortLink.generate_short_code] and
       [ShortLink.decode_short_code] (urlshortener/models.py) *)

Section Codec.

(** [settings.SECRET_KEY] *)
Variable SECRET_KEY : str.

(** [hmac.new(settings.SECRET_KEY.encode(), msg=encoded_url.encode(),
              digestmod=hashlib.sha256).hexdigest()[:4]] *)
Definition signature_of (encoded_url : str) : result str :=
  key <- str_encode SECRET_KEY ;;
  msg <- str_encode encoded_url ;;
  Ok (take 4 (SHA256.hmac_hexdigest key msg)).

Definition generate_short_code (original_url : str) : result str :=
  url_bytes <- str_encode original_url ;;
  b64 <- bytes_decode (urlsafe_b64encode url_bytes) ;;
  let encoded_url := rstrip 61 b64 in
  signature <- signature_of encoded_url ;;
  Ok (encoded_url ++ signature).

Definition decode_short_code (short_code : str) : result str :=
  if Nat.leb (length short_code) 4 then
    Raise (ValueError "Short code is invalid")
  else
    let encoded_url := take (length short_code - 4) short_code in
    let signature := drop (length short_code - 4) short_code in
    expected_signature <- signature_of encoded_url ;;
    if negb (str_eqb signature expected_signature) then
      Raise (ValueError "Signature of short code is invalid")
    else
      let padding_needed := (4 - length encoded_url mod 4)%nat in
      let encoded_url := encoded_url ++ replicate padding_needed 61 in
      match (b <- urlsafe_b64decode_str encoded_url ;; bytes_decode b) with
      | Ok original_url => Ok original_url
      | Raise _ => Raise (ValueError "Failed to decode the short code")
      end.

End Codec.

Example generate_example :
  generate_short_code (lit "secret") (lit "https://example.com/a")
  = Ok (lit "aHR0cHM6Ly9leGFtcGxlLmNvbS9hbef1").
Proof. vm_compute. reflexivity. Qed.

Example generate_example_unicode :
  generate_short_code (lit "secret")
    (lit "http://" ++ [0xE9] ++ lit ".com/" ++ [0x1F600] ++ lit "x")
  = Ok (lit "aHR0cDovL8OpLmNvbS_wn5iAeA7464").
Proof. vm_compute. reflexivity. Qed.

Example decode_example :
  decode_short_code (lit "secret") (lit "aHR0cHM6Ly9leGFtcGxlLmNvbS9hYg8a8f")
  = Ok (lit "https://example.com/ab").
Proof. vm_compute. reflexivity. Qed.

Example decode_forged :
  decode_short_code (lit "secret") (lit "aHR0cHM6Ly9leGFtcGxlLmNvbS9hYg8a8e")
  = Raise (ValueError "Signature of short code is invalid").
Proof. vm_compute. reflexivity. Qed.

(** *** ASCII text between [str] and [bytes] *)

Definition ascii_bytes (bs : bytes) : Prop :=
  Forall (fun b => Byte.to_N b < 128) bs.

Lemma bytes_decode_ascii (bs : bytes) :
  ascii_bytes bs -> bytes_decode bs = Ok (map Byte.to_N bs).
Proof.
  induction 1 as [|b r Hb _ IH]; [done|].
  cbn [bytes_decode map]. apply N.ltb_lt in Hb. by rewrite Hb, IH.
Qed.

Lemma str_encode_ascii (bs : bytes) :
  ascii_bytes bs -> str_encode (map Byte.to_N bs) = Ok bs.
Proof.
  induction 1 as [|b r Hb _ IH]; [done|].
  cbn [str_encode map]. unfold utf8_encode_char.
  apply N.ltb_lt in Hb. by rewrite Hb, IH, byte_of_to_N.
Qed.

Lemma ascii_encode_ascii (bs : bytes) :
  ascii_bytes bs -> ascii_encode (map Byte.to_N bs) = Ok bs.
Proof.
  induction 1 as [|b r Hb _ IH]; [done|].
  cbn [ascii_encode map]. apply N.ltb_lt in Hb.
  by rewrite Hb, IH, byte_of_to_N.
Qed.

Lemma ascii_bytes_digits (ss : list N) :
  Forall (fun s => s < 64) ss -> ascii_bytes (map url_digit ss).
Proof.
  induction 1 as [|s r Hs _ IH]; constructor; [|done].
  by apply url_digit_ascii.
Qed.

Lemma ascii_bytes_pad (k : nat) : ascii_bytes (replicate k PAD).
Proof. induction k; constructor; [done|done]. Qed.

Lemma rstrip_app_replicate (c : N) (s : str) (k : nat) :
  Forall (fun x => x <> c) s -> rstrip c (s ++ replicate k c) = s.
Proof.
  induction 1 as [|x r Hx Hr IH]; simpl.
  - induction k as [|k IH]; [done|]. simpl. rewrite IH.
    by rewrite N.eqb_refl.
  - rewrite IH. destruct r as [|y r']; [|done].
    apply N.eqb_neq in Hx. by rewrite Hx.
Qed.

(** The digits of the URL-safe encoding of [bs], as text. *)
Definition b64_text (bs : bytes) : str :=
  map Byte.to_N (map url_digit (b64_sextets bs)).

Lemma b64_text_no_pad (bs : bytes) : Forall (fun x => x <> 61) (b64_text bs).
Proof.
  unfold b64_text. rewrite !Forall_map.
  eapply Forall_impl; [apply b64_sextets_lt|].
  intros s Hs. by apply url_digit_not_pad.
Qed.

(** [base64.urlsafe_b64encode(bs).decode().rstrip('=')] *)
Lemma encoded_url_text (bs : bytes) :
  (b64 <- bytes_decode (urlsafe_b64encode bs) ;; Ok (rstrip 61 b64))
  = Ok (b64_text bs).
Proof.
  rewrite urlsafe_b64encode_split, bytes_decode_ascii.
  - cbn [rbind]. rewrite map_app.
    replace (map Byte.to_N (replicate (b64_npad (length bs)) PAD))
      with (replicate (b64_npad (length bs)) 61)
      by (by induction (b64_npad (length bs)); simpl; f_equal).
    f_equal. apply rstrip_app_replicate, b64_text_no_pad.
  - apply Forall_app. split; [|apply ascii_bytes_pad].
    apply ascii_bytes_digits, b64_sextets_lt.
Qed.

Lemma b64_sextets_padding (bs : bytes) :
  (b64_npad (length bs) <= 4 - length (b64_sextets bs) mod 4)%nat.
Proof.
  induction bs as [|b0|b0 b1|b0 b1 b2 r IH] using list_ind3;
    cbn [b64_sextets length b64_npad]; try (cbn; lia).
  replace (S (S (S (S (length (b64_sextets r))))) mod 4)%nat
    with (length (b64_sextets r) mod 4)%nat; [done|].
  rewrite <- (Nat.Div0.mod_add (length (b64_sextets r)) 1 4).
  f_equal. lia.
Qed.

Lemma b64_sextets_nonempty (bs : bytes) : bs <> [] -> b64_sextets bs <> [].
Proof. by destruct bs as [|b0 [|b1 [|b2 r]]]. Qed.

Lemma str_encode_nonempty (s : str) (bs : bytes) :
  s <> [] -> str_encode s = Ok bs -> bs <> [].
Proof.
  destruct s as [|c s]; [done|]. intros _. cbn [str_encode].
  destruct (utf8_encode_char c) as [cb|] eqn:Ec; [|done].
  destruct (str_encode s) as [r|]; [|done]. cbn. intros [= <-].
  unfold utf8_encode_char in Ec.
  repeat match type of Ec with
         | (if ?b then _ else _) = _ => destruct b
         end; by simplify_eq.
Qed.

(** Decoding the text of the digits, with the padding that
    [decode_short_code] restores: one to four [=]. *)
Lemma urlsafe_b64decode_text (bs : bytes) :
  urlsafe_b64decode_str
    (b64_text bs ++ replicate (4 - length (b64_text bs) mod 4) 61)
  = Ok bs.
Proof.
  unfold urlsafe_b64decode_str, b64_text.
  set (k := (4 - _ mod 4)%nat).
  replace (replicate k 61) with (map Byte.to_N (replicate k PAD))
    by (by induction k; simpl; f_equal).
  rewrite <- map_app, ascii_encode_ascii.
  - cbn [rbind]. unfold urlsafe_b64decode. apply a2b_base64_sextets.
    subst k. rewrite !length_map. apply b64_sextets_padding.
  - apply Forall_app. split; [|apply ascii_bytes_pad].
    apply ascii_bytes_digits, b64_sextets_lt.
Qed.

(** ** [urllib.parse]: [urlparse] and [urlunparse]

    The functions of the standard library that
    [ShortLink.canonicalize_url] composes, as CPython 3.12.4 and later
    define them. The two checks of a network location that depend on
    Unicode tables and on the parser of IP literals
    ([_check_bracketed_netloc] and the NFKC test of [_checknetloc]) are
    parameters; nothing below depends on what they answer. *)

Module UrlParse.

(** *** String primitives *)

(** [s.find(c)]; [None] is Python's [-1]. *)
Fixpoint find (c : N) (s : str) : option nat :=
  match s with
  | [] => None
  | x :: r => if x =? c then Some O else S <$> find c r
  end.

(** [s.find(c, start)] *)
Definition find_from (c : N) (start : nat) (s : str) : option nat :=
  (fun i => (start + i)%nat) <$> find c (drop start s).

(** [s.rfind(c)] *)
Fixpoint rfind (c : N) (s : str) : option nat :=
  match s with
  | [] => None
  | x :: r =>
      match rfind c r with
      | Some i => Some (S i)
      | None => if x =? c then Some O else None
      end
  end.

(** [c in s] *)
Definition contains (c : N) (s : str) : bool := bool_decide (find c s <> None).

(** [s.split(c, 1)] when [c in s] *)
Definition split1 (c : N) (s : str) : str * str :=
  match find c s with
  | Some i => (take i s, drop (S i) s)
  | None => (s, [])
  end.

Definition c0_control_or_space (c : N) : bool := c <=? 0x20.

(** [url.lstrip(_WHATWG_C0_CONTROL_OR_SPACE)] *)
Fixpoint lstrip_c0 (s : str) : str :=
  match s with
  | [] => []
  | c :: r => if c0_control_or_space c then lstrip_c0 r else s
  end.

(** [_UNSAFE_URL_BYTES_TO_REMOVE]: tab, carriage return, line feed. *)
Definition unsafe_url_byte (c : N) : bool := (c =? 9) || (c =? 13) || (c =? 10).

Definition remove_unsafe (s : str) : str :=
  List.filter (fun c => negb (unsafe_url_byte c)) s.

Definition is_upper (c : N) : bool := (65 <=? c) && (c <=? 90).
Definition is_lower (c : N) : bool := (97 <=? c) && (c <=? 122).
Definition is_digit (c : N) : bool := (48 <=? c) && (c <=? 57).

(** [c.isascii() and c.isalpha()] *)
Definition is_ascii_alpha (c : N) : bool := is_upper c || is_lower c.

(** [c in scheme_chars] *)
Definition is_scheme_char (c : N) : bool :=
  is_lower c || is_upper c || is_digit c || (c =? 43) || (c =? 45) || (c =? 46).

(** [s.lower()] on the characters of a scheme, which are ASCII. *)
Definition lower (s : str) : str :=
  map (fun c => if is_upper c then c + 32 else c) s.

Definition isascii (s : str) : bool := forallb (fun c => c <? 128) s.

Definition uses_netloc : list str :=
  map lit ["ftp"; "http"; "gopher"; "nntp"; "telnet"; "imap"; "wais"; "file";
           "mms"; "https"; "shttp"; "snews"; "prospero"; "rtsp"; "rtsps";
           "rtspu"; "rsync"; "svn"; "svn+ssh"; "sftp"; "nfs"; "git";
           "git+ssh"; "ws"; "wss"; "itms-services"]%string ++ [[]].

Definition uses_params : list str :=
  map lit ["ftp"; "hdl"; "prospero"; "http"; "imap"; "https"; "shttp";
           "rtsp"; "rtsps"; "rtspu"; "sip"; "sips"; "mms"; "sftp"; "tel"]%string
  ++ [[]].

(** [x in l] for a list of strings *)
Definition str_in (x : str) (l : list str) : bool := bool_decide (x ∈ l).

(** *** Results *)

Record SplitResult : Type := mkSplit {
  s_scheme : str; s_netloc : str; s_path : str;
  s_query : str; s_fragment : str }.

Record ParseResult : Type := mkParse {
  scheme : str; netloc : str; path : str;
  params : str; query : str; fragment : str }.

Section Parse.

Variable bracketed_netloc_ok : str -> bool.
Variable nfkc_netloc_ok : str -> bool.

(** [_splitnetloc(url, 2)] *)
Definition splitnetloc (url : str) (start : nat) : str * str :=
  let delim :=
    fold_left (fun delim c =>
                 match find_from c start url with
                 | Some wdelim => Nat.min delim wdelim
                 | None => delim
                 end) [47; 63; 35] (length url) in
  (take (delim - start) (drop start url), drop delim url).

(** The bracket tests of [urlsplit]. *)
Definition check_brackets (netloc : str) : result unit :=
  let ob := contains 91 netloc in
  let cb := contains 93 netloc in
  if (ob && negb cb) || (cb && negb ob) then
    Raise (ValueError "Invalid IPv6 URL")
  else if ob && cb then
    if bracketed_netloc_ok netloc then Ok ()
    else Raise (ValueError "Invalid IPv6 URL")
  else Ok ().

(** [_checknetloc] *)
Definition checknetloc (netloc : str) : result unit :=
  if bool_decide (netloc = []) || isascii netloc then Ok ()
  else if nfkc_netloc_ok netloc then Ok ()
  else Raise (ValueError "netloc contains invalid characters under NFKC normalization").

(** The scheme of [url], if it starts with one: [(scheme, rest)]. *)
Definition split_scheme (url : str) : option (str * str) :=
  match find 58 url with
  | Some i =>
      if Nat.ltb 0 i && is_ascii_alpha (hd 0 url)
         && forallb is_scheme_char (take i url)
      then Some (lower (take i url), drop (S i) url)
      else None
  | None => None
  end.

(** The three splitting steps of [urlsplit]. *)
Definition scheme_stage (url : str) : str * str :=
  match split_scheme url with
  | Some (scheme, rest) => (scheme, rest)
  | None => ([], url)
  end.

Definition netloc_stage (url : str) : result (str * str) :=
  if bool_decide (take 2 url = [47; 47]) then
    let '(netloc, url) := splitnetloc url 2 in
    _ <- check_brackets netloc ;; Ok (netloc, url)
  else Ok ([], url).

(** [if c in url: url, rest = url.split(c, 1)] *)
Definition split_at (c : N) (url : str) : str * str :=
  if contains c url then split1 c url else (url, []).

Definition urlsplit (url : str) : result SplitResult :=
  let url := lstrip_c0 url in
  let url := remove_unsafe url in
  let '(scheme, url) := scheme_stage url in
  r <- netloc_stage url ;;
  let '(netloc, url) := r in
  let '(url, fragment) := split_at 35 url in
  let '(url, query) := split_at 63 url in
  _ <- checknetloc netloc ;;
  Ok (mkSplit scheme netloc url query fragment).

Definition splitparams (url : str) : str * str :=
  if contains 47 url then
    match rfind 47 url with
    | Some j =>
        match find_from 59 j url with
        | Some i => (take i url, drop (S i) url)
        | None => (url, [])
        end
    | None => (url, [])
    end
  else
    match find 59 url with
    | Some i => (take i url, drop (S i) url)
    | None => (take (length url - 1) url, url)
    end.

Definition urlparse (url : str) : result ParseResult :=
  sr <- urlsplit url ;;
  let '(url, params) :=
    if str_in (s_scheme sr) uses_params && contains 59 (s_path sr)
    then splitparams (s_path sr)
    else (s_path sr, []) in
  Ok (mkParse (s_scheme sr) (s_netloc sr) url params (s_query sr) (s_fragment sr)).

End Parse.

Definition urlunsplit (scheme netloc url query fragment : str) : str :=
  let url :=
    if negb (bool_decide (netloc = [])) then
      [47; 47] ++ netloc
      ++ (if negb (bool_decide (url = [])) && negb (bool_decide (take 1 url = [47]))
          then 47 :: url else url)
    else if bool_decide (take 2 url = [47; 47]) then [47; 47] ++ url
    else if negb (bool_decide (scheme = [])) && str_in scheme uses_netloc
            && (bool_decide (url = []) || bool_decide (take 1 url = [47]))
    then [47; 47] ++ url
    else url in
  let url := if negb (bool_decide (scheme = [])) then scheme ++ [58] ++ url else url in
  let url := if negb (bool_decide (query = [])) then url ++ [63] ++ query else url in
  let url := if negb (bool_decide (fragment = [])) then url ++ [35] ++ fragment else url in
  url.

Definition urlunparse (p : ParseResult) : str :=
  let url :=
    if negb (bool_decide (params p = [])) then path p ++ [59] ++ params p
    else path p in
  urlunsplit (scheme p) (netloc p) url (query p) (fragment p).

End UrlParse.

(** ** [ShortLink.canonicalize_url] (urlshortener/models.py) *)

Section Canonicalizer.

Variable bracketed_netloc_ok : str -> bool.
Variable nfkc_netloc_ok : str -> bool.

(** [parsed._replace(query="", fragment="")] *)
Definition replace_query_fragment (p : UrlParse.ParseResult)
  : UrlParse.ParseResult :=
  UrlParse.mkParse (UrlParse.scheme p) (UrlParse.netloc p) (UrlParse.path p)
                   (UrlParse.params p) [] [].

Definition canonicalize_url (url : str) : result str :=
  parsed <- UrlParse.urlparse bracketed_netloc_ok nfkc_netloc_ok url ;;
  let clean := replace_query_fragment parsed in
  Ok (UrlParse.urlunparse clean).

End Canonicalizer.

Example canonicalize_example (o1 o2 : str -> bool) :
  canonicalize_url o1 o2 (lit "https://example.com/a?x=1#frag")
  = Ok (lit "https://example.com/a").
Proof. vm_compute. reflexivity. Qed.

(** ** Python values, the cache and the settings *)

(** The dynamically typed values that the views pass around. *)
Inductive pyval : Type :=
| VNone
| VBool (b : bool)
| VStr (s : str)
| VList (l : list str)
| VDict (d : list (string * str)).

(** [bool(v)] *)
Definition truthy (v : pyval) : bool :=
  match v with
  | VNone => false
  | VBool b => b
  | VStr s => negb (bool_decide (s = []))
  | VList l => match l with [] => false | _ => true end
  | VDict d => match d with [] => false | _ => true end
  end.

Fixpoint assoc (k : string) (d : list (string * str)) : option str :=
  match d with
  | [] => None
  | (k', v) :: r => if String.eqb k k' then Some v else assoc k r
  end.

(** [v[key]] for a string key *)
Definition getitem (v : pyval) (key : string) : result pyval :=
  match v with
  | VDict d =>
      match assoc key d with
      | Some x => Ok (VStr x)
      | None => Raise (KeyError key)
      end
  | VBool _ => Raise (TypeError "'bool' object is not subscriptable")
  | VNone => Raise (TypeError "'NoneType' object is not subscriptable")
  | VStr _ => Raise (TypeError "string indices must be integers, not 'str'")
  | VList _ => Raise (TypeError "list indices must be integers or slices, not str")
  end.

(** [x in v] for a string [x] *)
Definition pyval_contains (x : str) (v : pyval) : result bool :=
  match v with
  | VList l =>
      Ok (existsb (fun y => str_eqb y x) l)
  | VStr s =>
      Ok (existsb (fun i => str_eqb (take (length x) (drop i s)) x)
                  (seq 0 (S (length s))))
  | VDict d => Ok (existsb (fun kv => str_eqb (lit kv.1) x) d)
  | VBool _ => Raise (TypeError "argument of type 'bool' is not iterable")
  | VNone => Raise (TypeError "argument of type 'NoneType' is not iterable")
  end.

(** [django.core.cache.cache]: a value and the timeout it was stored with,
    per key. Only live entries are in the map. *)
Abbreviation cache := (gmap (list N) (pyval * N)).

Definition cache_get (c : cache) (key : str) : pyval :=
  match c !! key with
  | Some (v, _) => v
  | None => VNone
  end.

Definition cache_set (c : cache) (key : str) (v : pyval) (timeout : N) : cache :=
  <[key := (v, timeout)]> c.

(** [f"{x}"] for a value that is a string or [None] *)
Definition format_opt (x : option str) : str :=
  match x with
  | Some s => s
  | None => lit "None"
  end.

(** ** The abuse guard: [BlockedIp.is_blocked_ip] (urlshortener/models.py) *)

Record BlockedIp : Type := mkBlockedIp {
  ip_address : str;
  is_blocked_for_all_url : bool;
  is_unblocked_for_every_url : bool;
  blocked_links : list str;
  blocked_is_active : bool }.

(** [BlockedIp.objects.filter(ip_address=ip, is_active=True).exists()];
    a lookup with [None] matches no row of a non-null column. *)
Definition blocked_ip_exists (table : list BlockedIp) (ip : option str) : bool :=
  match ip with
  | Some a =>
      existsb (fun r => str_eqb (ip_address r) a && blocked_is_active r) table
  | None => false
  end.

Definition is_blocked_ip (table : list BlockedIp) (c : cache)
    (ip : option str) (original_url : str) : result bool * cache :=
  let cache_key_all := lit "blocked_ip_all_" ++ format_opt ip in
  if truthy (cache_get c cache_key_all) then (Ok true, c)
  else
    let cache_key_link :=
      lit "blocked_ip_link_" ++ format_opt ip ++ lit "_" ++ original_url in
    if truthy (cache_get c cache_key_link) then (Ok true, c)
    else
      let blocked_ip := VBool (blocked_ip_exists table ip) in
      if negb (truthy blocked_ip) then (Ok false, c)
      else
        match getitem blocked_ip "is_blocked_for_all_url" with
        | Raise e => (Raise e, c)
        | Ok all_url =>
            if truthy all_url then
              (Ok true, cache_set c cache_key_all (VBool true) 900)
            else
              match getitem blocked_ip "blocked_links" with
              | Raise e => (Raise e, c)
              | Ok links =>
                  match pyval_contains original_url links with
                  | Raise e => (Raise e, c)
                  | Ok true =>
                      (Ok true, cache_set c cache_key_link (VBool true) 900)
                  | Ok false => (Ok false, c)
                  end
              end
        end.

(** ** The database, the task queue and the Redis client *)

#[global] Instance byte_eq_dec : EqDecision byte.
Proof.
  intros a b. destruct (decide (Byte.to_N a = Byte.to_N b)) as [H|H].
  - left. by rewrite <- (byte_of_to_N a), <- (byte_of_to_N b), H.
  - right. by intros ->.
Defined.

#[global] Instance byte_countable : Countable byte :=
  inj_countable' Byte.to_N byte_of byte_of_to_N.

(** The entries of [request.META] that the program reads; the JSON text
    that [convert_request_data_to_json] builds and [log_click] parses
    again carries them unchanged. *)
Record request_data : Type := mkRequest {
  REMOTE_ADDR : option str;
  HTTP_REFERER : option str;
  HTTP_USER_AGENT : option str }.

Record Campaign : Type := mkCampaign {
  campaign_id : N;
  campaign_name : str }.

Record ShortLink : Type := mkShortLink {
  link_id : N;
  original_url : str;
  short_code : option str;
  link_campaign : option N;
  click_count : Z }.

Record ClickLog : Type := mkClickLog {
  log_original_url : str;
  log_ip_address : option str;
  log_referrer : option str;
  log_user_agent : str;
  log_request_data : request_data }.

Record database : Type := mkDatabase {
  campaigns : list Campaign;
  short_links : list ShortLink;
  click_logs : list ClickLog;
  blocked_ips : list BlockedIp }.

(** All that the views and tasks read and write. [redis] is the client of
    urlshortener/tasks.py: a hash of counters per key. [queue] holds the
    [log_click.delay(...)] calls that were enqueued. *)
Record world : Type := mkWorld {
  db : database;
  the_cache : cache;
  redis : gmap (list N) (gmap (list byte) Z);
  queue : list (str * request_data) }.

Definition set_cache (w : world) (c : cache) : world :=
  mkWorld (db w) c (redis w) (queue w).

Definition set_db (w : world) (d : database) : world :=
  mkWorld d (the_cache w) (redis w) (queue w).

Definition set_redis (w : world) (r : gmap (list N) (gmap (list byte) Z)) : world :=
  mkWorld (db w) (the_cache w) r (queue w).

Definition set_short_links (d : database) (l : list ShortLink) : database :=
  mkDatabase (campaigns d) l (click_logs d) (blocked_ips d).

(** [log_click.delay(url, request_data_json)] *)
Definition enqueue_log_click (w : world) (url : str) (r : request_data) : world :=
  mkWorld (db w) (the_cache w) (redis w) (queue w ++ [(url, r)]).

Inductive response : Type :=
| Response (body : list (string * pyval)) (status : N)
| HttpResponsePermanentRedirect (url : str).

Section Application.

(** [settings.SECRET_KEY], read from the environment by core/settings.py. *)
Variable SECRET_KEY : str.

(** [os.environ] *)
Variable environ : gmap string (list N).

(** The checks of a network location in [urllib.parse]. *)
Variable bracketed_netloc_ok : str -> bool.
Variable nfkc_netloc_ok : str -> bool.

(** [urllib.parse.unquote] and Django's [URLValidator] (accepts or raises
    [ValidationError]). *)
Variable unquote : str -> str.
Variable URLValidator : str -> bool.

(** [zlib.compress] and [zlib.decompress]. *)
Variable zlib_compress : bytes -> bytes.
Variable zlib_decompress : bytes -> result bytes.

(** [os.getenv(name, default)] *)
Definition getenv (name : string) (default : str) : str :=
  match environ !! name with
  | Some v => v
  | None => default
  end.

(** *** core/settings.py

    The attributes of [django.conf.settings] with a string, list or
    dictionary value that core/settings.py defines. *)
Definition settings : list (string * pyval) :=
  [("SECRET_KEY", VStr SECRET_KEY);
   ("DEBUG", VStr (getenv "DEBUG" (lit "True")));
   ("ROOT_URLCONF", VStr (lit "core.urls"));
   ("SESSION_ENGINE", VStr (lit "django.contrib.sessions.backends.cache"));
   ("SESSION_CACHE_ALIAS", VStr (lit "default"));
   ("CELERY_ACCEPT_CONTENT", VList [lit "json"]);
   ("CELERY_TASK_SERIALIZER", VStr (lit "json"));
   ("CELERY_RESULT_SERIALIZER", VStr (lit "json"));
   ("CELERY_TIMEZONE", VStr (lit "Asia/Tehran"));
   ("CELERY_BEAT_SCHEDULER",
      VStr (lit "django_celery_beat.schedulers:DatabaseScheduler"));
   ("ALLOWED_HOSTS", VList [lit "localhost"; lit "127.0.0.1"]);
   ("ALLOWED_DOMAINS",
      VDict [("DOMAIN_1", lit "http://127.0.0.1:8000/m");
             ("DOMAIN_2", lit "https://example.com/m");
             ("DOMAIN_3", lit "https://another-domain.com/m")]);
   ("DEFAULT_DOMAIN", VStr (lit "DOMAIN_1"));
   ("WSGI_APPLICATION", VStr (lit "core.wsgi.application"));
   ("LANGUAGE_CODE", VStr (lit "en-us"));
   ("TIME_ZONE", VStr (lit "Asia/Tehran"));
   ("USE_I18N", VBool true);
   ("USE_TZ", VBool true);
   ("DEFAULT_AUTO_FIELD", VStr (lit "django.db.models.BigAutoField"));
   ("STATIC_URL", VStr (lit "/static/"));
   ("MEDIA_URL", VStr (lit "/media/"))]%string.

Fixpoint settings_lookup (name : string) (l : list (string * pyval))
  : option pyval :=
  match l with
  | [] => None
  | (k, v) :: r => if String.eqb name k then Some v else settings_lookup name r
  end.

(** [settings.<name>] *)
Definition settings_getattr (name : string) : result pyval :=
  match settings_lookup name settings with
  | Some v => Ok v
  | None =>
      Raise (AttributeError
               ("'Settings' object has no attribute '" ++ name ++ "'"))
  end.

(** *** urlshortener/models.py: [ShortLink] *)

Definition is_valid_url (url : option str) : bool :=
  match url with
  | None => false
  | Some u =>
      if bool_decide (u = []) then false
      else
        let decoded_url := unquote u in
        URLValidator decoded_url
  end.

Definition compress_url (url : str) : result str :=
  url_bytes <- str_encode url ;;
  let compressed := zlib_compress url_bytes in
  bytes_decode (urlsafe_b64encode compressed).

Definition decompress_url (compressed_url : str) : result str :=
  b <- str_encode compressed_url ;;
  compressed <- urlsafe_b64decode b ;;
  d <- zlib_decompress compressed ;;
  bytes_decode d.

(** [ShortLink.save]: a link without a code gets the code of its stored
    URL. *)
Definition ShortLink_save_code (l : ShortLink) : result ShortLink :=
  match short_code l with
  | Some (_ :: _) => Ok l
  | _ =>
      code <- generate_short_code SECRET_KEY (original_url l) ;;
      Ok (mkShortLink (link_id l) (original_url l) (Some code)
                      (link_campaign l) (click_count l))
  end.

(** The primary key of the next row. *)
Definition next_id (l : list ShortLink) : N :=
  1 + fold_right (fun r m => N.max (link_id r) m) 0 l.

(** [ShortLink.objects.create(original_url=..., campaign=...)] *)
Definition ShortLink_create (d : database) (url : str) (campaign : Campaign)
  : result (ShortLink * database) :=
  let row := mkShortLink (next_id (short_links d)) url None
                         (Some (campaign_id campaign)) 0 in
  saved <- ShortLink_save_code row ;;
  Ok (saved, set_short_links d (short_links d ++ [saved])).

(** [short_link.save()] for a row that is in the table. *)
Definition ShortLink_update (d : database) (l : ShortLink) : result database :=
  saved <- ShortLink_save_code l ;;
  Ok (set_short_links d
        (map (fun r => if link_id r =? link_id saved then saved else r)
             (short_links d))).

(** [ShortLink.objects.filter(short_code=code).exists()] *)
Definition short_code_exists (d : database) (code : str) : bool :=
  existsb (fun r => bool_decide (short_code r = Some code)) (short_links d).

(** *** urlshortener/views.py: [RedirectView.get] *)

(** What the [try] block of the view does with the outcome of its body:
    a [ValueError] becomes a 400 response, any other exception leaves the
    view. *)
Definition except_ValueError (r : result response * world)
  : result response * world :=
  match r with
  | (Raise e, w) =>
      if is_ValueError e then
        (Ok (Response [("error", VStr (lit (exn_message e)))]%string 400), w)
      else (Raise e, w)
  | ok => ok
  end.

Definition RedirectView_get (w : world) (request : request_data)
    (code : str) : result response * world :=
  let ip := REMOTE_ADDR request in
  let cached_url := cache_get (the_cache w) (lit "short_link_" ++ code) in
  let request_data_json := request in
  if truthy cached_url then
    match cached_url with
    | VStr url =>
        match is_blocked_ip (blocked_ips (db w)) (the_cache w) ip url with
        | (Raise e, c) => (Raise e, set_cache w c)
        | (Ok true, c) =>
            (Ok (Response [("status", VStr (lit "blocked"))]%string 403),
             set_cache w c)
        | (Ok false, c) =>
            (Ok (HttpResponsePermanentRedirect url),
             enqueue_log_click (set_cache w c) url request_data_json)
        end
    | _ => (Raise (TypeError "the cached destination is not a string"), w)
    end
  else
    except_ValueError
      match decode_short_code SECRET_KEY code with
      | Raise e => (Raise e, w)
      | Ok url =>
          match is_blocked_ip (blocked_ips (db w)) (the_cache w) ip url with
          | (Raise e, c) => (Raise e, set_cache w c)
          | (Ok true, c) =>
              (Ok (Response [("status", VStr (lit "blocked"))]%string 403),
               set_cache w c)
          | (Ok false, c) =>
              let c := cache_set c (lit "short_link_" ++ code) (VStr url) 1200 in
              (Ok (HttpResponsePermanentRedirect url),
               enqueue_log_click (set_cache w c) url request_data_json)
          end
      end.

(** *** urlshortener/views.py: [ShortenURLAPI.post]

    The local variable [original_url] of the view (the URL as submitted)
    is [url] here; [original_url] is the column of [ShortLink]. *)

Record shorten_request : Type := mkShorten {
  data_url : option str;
  data_campaign_id : option N }.

(** The [while] loop of the view: regenerate the code as long as a link
    with that code exists. [None]: the loop has not ended within [fuel]
    iterations. *)
Fixpoint regenerate_while_exists (fuel : nat) (d : database)
    (url generated_code : str) : option (result str) :=
  if short_code_exists d generated_code then
    match fuel with
    | O => None
    | S fuel' =>
        match generate_short_code SECRET_KEY url with
        | Raise e => Some (Raise e)
        | Ok generated_code' =>
            regenerate_while_exists fuel' d url generated_code'
        end
    end
  else Some (Ok generated_code).

Definition error_response (msg : string) : response :=
  Response [("error", VStr (lit msg))]%string 400.

Definition ShortenURLAPI_post (fuel : nat) (w : world) (request : shorten_request)
  : option (result response * world) :=
  let url := data_url request in
  let campaign_id_ := data_campaign_id request in
  let is_valid := is_valid_url url in
  match url with
  | None | Some [] => Some (Ok (error_response "URL is required"), w)
  | Some url =>
  if negb is_valid then
    Some (Ok (Response [("is_valid_url", VBool false)]%string 400), w)
  else
  match campaign_id_ with
  | None | Some 0 => Some (Ok (error_response "Campaign ID is required"), w)
  | Some cid =>
  match canonicalize_url bracketed_netloc_ok nfkc_netloc_ok url with
  | Raise e => Some (Raise e, w)
  | Ok canonical_url =>
  match List.find (fun c => campaign_id c =? cid) (campaigns (db w)) with
  | None => Some (Ok (error_response "Invalid campaign ID"), w)
  | Some campaign =>
  match List.find (fun l => str_eqb (original_url l) canonical_url
                            && bool_decide (link_campaign l = Some (campaign_id campaign)))
                  (short_links (db w)) with
  | Some existing_link =>
      match (domains <- settings_getattr "DOMAINS" ;; getitem domains "local") with
      | Raise e => Some (Raise e, w)
      | Ok domain =>
          let domain := match domain with VStr s => s | _ => [] end in
          Some (Ok (Response
                      [("short_url",
                        VStr (domain ++ lit "/"
                              ++ format_opt (short_code existing_link)))]%string
                      200), w)
      end
  | None =>
      match ShortLink_create (db w) canonical_url campaign with
      | Raise e => Some (Raise e, w)
      | Ok (short_link, d1) =>
          let w1 := set_db w d1 in
          match generate_short_code SECRET_KEY url with
          | Raise e => Some (Raise e, w1)
          | Ok generated_code =>
              match regenerate_while_exists fuel d1 url generated_code with
              | None => None
              | Some (Raise e) => Some (Raise e, w1)
              | Some (Ok generated_code) =>
                  let short_link :=
                    mkShortLink (link_id short_link) (original_url short_link)
                                (Some generated_code)
                                (link_campaign short_link)
                                (click_count short_link) in
                  match ShortLink_update d1 short_link with
                  | Raise e => Some (Raise e, w1)
                  | Ok d2 =>
                      Some (Ok (Response [("short_url", VStr generated_code)]%string
                                         201),
                            set_db w d2)
                  end
              end
          end
      end
  end end end end end.

(** *** urlshortener/tasks.py *)

Definition REDIS_CLICK_KEY : str := lit "shortlink_click_count".

(** [redis_client.hgetall(key)]: the empty dictionary for a missing key. *)
Definition hgetall (r : gmap (list N) (gmap (list byte) Z)) (key : str)
  : gmap (list byte) Z :=
  match r !! key with
  | Some h => h
  | None => ∅
  end.

(** [redis_client.hincrby(key, field, amount)] *)
Definition hincrby (r : gmap (list N) (gmap (list byte) Z)) (key : str)
    (field : bytes) (amount : Z) : gmap (list N) (gmap (list byte) Z) :=
  let h := hgetall r key in
  let old := match h !! field with Some n => n | None => 0%Z end in
  <[key := <[field := (old + amount)%Z]> h]> r.

(** [ShortLink.objects.filter(original_url=url)
      .update(click_count=F('click_count') + count)] *)
Definition add_clicks (url : str) (count : Z) (links : list ShortLink)
  : list ShortLink :=
  map (fun l =>
         if str_eqb (original_url l) url then
           mkShortLink (link_id l) (original_url l) (short_code l)
                       (link_campaign l) (click_count l + count)%Z
         else l) links.

(** The body of the transaction of [count_log_click]: one update per
    entry of the hash. *)
Fixpoint apply_click_data (items : list (bytes * Z)) (links : list ShortLink)
  : result (list ShortLink) :=
  match items with
  | [] => Ok links
  | (compressed_url, count) :: rest =>
      field <- bytes_decode compressed_url ;;
      url <- decompress_url field ;;
      if bool_decide (url = []) then apply_click_data rest links
      else apply_click_data rest (add_clicks url count links)
  end.

(** Both [except] clauses catch, print and return [False]; the
    transaction is rolled back and the hash is not deleted. *)
Definition count_log_click (w : world) : bool * world :=
  let redis_click_key := getenv "REDIS_CLICK_KEY" (lit "click_count") in
  let click_data := hgetall (redis w) redis_click_key in
  if bool_decide (click_data = ∅) then (false, w)
  else
    match apply_click_data (map_to_list click_data) (short_links (db w)) with
    | Ok links =>
        (true,
         set_redis (set_db w (set_short_links (db w) links))
                   (delete redis_click_key (redis w)))
    | Raise _ => (false, w)
    end.

Definition add_click_log (w : world) (l : ClickLog) : world :=
  set_db w (mkDatabase (campaigns (db w)) (short_links (db w))
                       (click_logs (db w) ++ [l]) (blocked_ips (db w))).

Definition log_click (w : world) (url : str) (request_data_json : request_data)
  : result bool * world :=
  let request_data := request_data_json in
  let ip_address := REMOTE_ADDR request_data in
  let referrer := HTTP_REFERER request_data in
  let user_agent := HTTP_USER_AGENT request_data in
  match user_agent with
  | None => (Raise (TypeError "'NoneType' object is not subscriptable"), w)
  | Some ua =>
      let w := add_click_log w
                 (mkClickLog url ip_address referrer (take 255 ua) request_data) in
      match (c <- compress_url url ;; str_encode c) with
      | Raise e => (Raise e, w)
      | Ok compressed_url =>
          (Ok true, set_redis w (hincrby (redis w) REDIS_CLICK_KEY compressed_url 1))
      end
  end.

(** [n] clicks on [url], one task after the other; a task that raises
    does not stop the next one. *)
Fixpoint log_clicks (n : nat) (w : world) (url : str) (r : request_data) : world :=
  match n with
  | O => w
  | S n' => log_clicks n' (log_click w url r).2 url r
  end.

End Application.

(** ** Facts on the string primitives of [urllib.parse] *)

Module UrlFacts.
Import UrlParse.

Lemma find_None (c : N) (s : str) : find c s = None <-> c ∉ s.
Proof.
  induction s as [|x s IH]; cbn [find].
  - split; [intros _; apply not_elem_of_nil|done].
  - rewrite not_elem_of_cons. destruct (N.eqb_spec x c) as [->|Hne].
    + split; [done|]. by intros [? _].
    + rewrite fmap_None, IH. split; [by auto|by intros [_ ?]].
Qed.

Lemma find_app (c : N) (pre post : str) :
  c ∉ pre -> find c (pre ++ c :: post) = Some (length pre).
Proof.
  induction pre as [|x pre IH]; cbn [find app length]; intros Hn.
  - by rewrite N.eqb_refl.
  - apply not_elem_of_cons in Hn as [Hx Hn].
    destruct (N.eqb_spec x c) as [->|_]; [done|]. by rewrite IH.
Qed.

Lemma find_Some (c : N) (s : str) (i : nat) :
  find c s = Some i ->
  exists pre post, s = pre ++ c :: post /\ (c ∉ pre) /\ length pre = i.
Proof.
  revert i. induction s as [|x s IH]; cbn [find]; intros i; [done|].
  destruct (N.eqb_spec x c) as [->|Hne].
  - intros [= <-]. exists [], s. split_and!; [done|apply not_elem_of_nil|done].
  - destruct (find c s) as [j|]; [|done]. cbn. intros [= <-].
    destruct (IH j eq_refl) as (pre & post & -> & Hn & <-).
    exists (x :: pre), post. split_and!; [done| |done].
    apply not_elem_of_cons. auto.
Qed.

Lemma find_app_l (c : N) (s t : str) (i : nat) :
  find c s = Some i -> find c (s ++ t) = Some i.
Proof.
  intros (pre & post & -> & Hn & <-)%find_Some.
  rewrite <- app_assoc. cbn. by apply find_app.
Qed.

Lemma find_notin_app (c : N) (pre s : str) :
  c ∉ pre -> find c (pre ++ s) = (fun i => (length pre + i)%nat) <$> find c s.
Proof.
  induction pre as [|x pre IH]; cbn [find app length]; intros Hn.
  - by destruct (find c s).
  - apply not_elem_of_cons in Hn as [Hx Hn].
    destruct (N.eqb_spec x c) as [->|_]; [done|].
    rewrite IH by done. by destruct (find c s).
Qed.

Lemma contains_true (c : N) (s : str) : contains c s = true <-> c ∈ s.
Proof.
  unfold contains. rewrite bool_decide_eq_true.
  destruct (decide (c ∈ s)) as [H|H].
  - split; [done|]. intros _ Hf. by apply find_None in Hf.
  - split; [|done]. intros Hf. by apply find_None in H.
Qed.

Lemma contains_false (c : N) (s : str) : contains c s = false <-> c ∉ s.
Proof.
  rewrite <- contains_true. by destruct (contains c s).
Qed.

Lemma split1_app (c : N) (pre post : str) :
  c ∉ pre -> split1 c (pre ++ c :: post) = (pre, post).
Proof.
  intros Hn. unfold split1. rewrite find_app by done.
  rewrite take_app_length.
  rewrite cons_middle, app_assoc, drop_app_length'; [done|].
  rewrite length_app. cbn. lia.
Qed.

(** [split_at] cuts at the first [c], and leaves a string without [c]
    whole. *)
Lemma split_at_spec (c : N) (s : str) :
  let '(a, b) := split_at c s in
  (c ∉ a) /\ (s = a /\ b = [] \/ s = a ++ c :: b).
Proof.
  unfold split_at. destruct (contains c s) eqn:Hc.
  - apply contains_true in Hc.
    destruct (find c s) as [i|] eqn:Hf; [|by apply find_None in Hf].
    apply find_Some in Hf as (pre & post & -> & Hn & <-).
    rewrite split1_app by done. auto.
  - apply contains_false in Hc. auto.
Qed.

Lemma split_at_notin (c : N) (s : str) : c ∉ s -> split_at c s = (s, []).
Proof. intros H. unfold split_at. by apply contains_false in H as ->. Qed.


Lemma rfind_None (c : N) (s : str) : rfind c s = None <-> c ∉ s.
Proof.
  induction s as [|x s IH]; cbn [rfind].
  - split; [intros _; apply not_elem_of_nil|done].
  - rewrite not_elem_of_cons. destruct (rfind c s) as [j|].
    + split; [done|]. intros [_ H]. by apply IH in H.
    + destruct (N.eqb_spec x c) as [->|Hne].
      * split; [done|]. by intros [? _].
      * split; [|done]. intros _. split; [by auto|by apply IH].
Qed.

Lemma rfind_app (c : N) (a b : str) :
  c ∉ b -> rfind c (a ++ c :: b) = Some (length a).
Proof.
  intros Hb. induction a as [|x a IH]; cbn [rfind app length].
  - apply rfind_None in Hb as ->. by rewrite N.eqb_refl.
  - by rewrite IH.
Qed.

Lemma rfind_Some (c : N) (s : str) (j : nat) :
  rfind c s = Some j ->
  exists a b, s = a ++ c :: b /\ (c ∉ b) /\ length a = j.
Proof.
  revert j. induction s as [|x s IH]; cbn [rfind]; intros j; [done|].
  destruct (rfind c s) as [k|] eqn:Hr.
  - intros [= <-]. destruct (IH k eq_refl) as (a & b & -> & Hb & <-).
    by exists (x :: a), b.
  - destruct (N.eqb_spec x c) as [->|Hne]; [|done].
    intros [= <-]. exists [], s. split_and!; [done| |done].
    by apply rfind_None.
Qed.

Lemma find_from_app (c : N) (a s : str) :
  find_from c (length a) (a ++ s)
  = (fun i => (length a + i)%nat) <$> find c s.
Proof. unfold find_from. by rewrite drop_app_length. Qed.

(** *** Characters *)

Ltac char_lia :=
  unfold is_ascii_alpha, is_scheme_char, is_upper, is_lower, is_digit,
    unsafe_url_byte, c0_control_or_space in *;
  repeat first
    [ rewrite orb_true_iff in * | rewrite andb_true_iff in *
    | rewrite orb_false_iff in * | rewrite andb_false_iff in *
    | rewrite N.leb_le in * | rewrite N.leb_gt in *
    | rewrite N.eqb_eq in * | rewrite N.eqb_neq in * ];
  lia.

Definition lower_char (c : N) : N := if is_upper c then c + 32 else c.

Lemma lower_char_alpha (c : N) :
  is_ascii_alpha c = true -> is_ascii_alpha (lower_char c) = true.
Proof. unfold lower_char. intros H. destruct (is_upper c) eqn:E; char_lia. Qed.

Lemma lower_char_scheme (c : N) :
  is_scheme_char c = true -> is_scheme_char (lower_char c) = true.
Proof. unfold lower_char. intros H. destruct (is_upper c) eqn:E; char_lia. Qed.

Lemma lower_char_idem (c : N) :
  is_scheme_char c = true -> lower_char (lower_char c) = lower_char c.
Proof.
  unfold lower_char. intros H. destruct (is_upper c) eqn:E; [|by rewrite E].
  replace (is_upper (c + 32)) with false; [done|]. symmetry. char_lia.
Qed.

Lemma scheme_char_safe (c : N) :
  is_scheme_char c = true -> unsafe_url_byte c = false.
Proof. intros H. char_lia. Qed.

Lemma scheme_char_not_colon (c : N) : is_scheme_char c = true -> c <> 58.
Proof. intros H ->. by vm_compute in H. Qed.

Lemma alpha_not_c0 (c : N) :
  is_ascii_alpha c = true -> c0_control_or_space c = false.
Proof. intros H. char_lia. Qed.

Lemma c0_of_unsafe (c : N) :
  c0_control_or_space c = false -> unsafe_url_byte c = false.
Proof. intros H. char_lia. Qed.


(** *** Strings that the parser leaves as they are *)

Definition safe (s : str) : Prop := Forall (fun c => unsafe_url_byte c = false) s.

Definition no_c0_head (s : str) : Prop :=
  forall c r, s = c :: r -> c0_control_or_space c = false.

Definition slash_or_empty (s : str) : Prop := s = [] \/ exists r, s = 47 :: r.

Lemma lstrip_c0_id (s : str) : no_c0_head s -> lstrip_c0 s = s.
Proof.
  destruct s as [|c r]; [done|]. intros H. cbn [lstrip_c0].
  by rewrite (H c r eq_refl).
Qed.

Lemma remove_unsafe_id (s : str) : safe s -> remove_unsafe s = s.
Proof.
  unfold remove_unsafe. induction 1 as [|c r Hc _ IH]; [done|].
  cbn [List.filter]. by rewrite Hc, IH.
Qed.

Lemma lstrip_c0_head (s : str) : no_c0_head (lstrip_c0 s).
Proof.
  induction s as [|c r IH]; [done|]. cbn [lstrip_c0].
  destruct (c0_control_or_space c) eqn:E; [done|].
  by intros c' r' [= <- <-].
Qed.

Lemma remove_unsafe_safe (s : str) : safe (remove_unsafe s).
Proof.
  unfold safe, remove_unsafe. induction s as [|c r IH]; [constructor|].
  cbn [List.filter]. destruct (unsafe_url_byte c) eqn:E; cbn [negb]; [done|].
  by constructor.
Qed.

Lemma remove_unsafe_head (s : str) : no_c0_head s -> no_c0_head (remove_unsafe s).
Proof.
  destruct s as [|c r]; [done|]. intros H.
  pose proof (H c r eq_refl) as Hc. unfold remove_unsafe. cbn [List.filter].
  rewrite (c0_of_unsafe _ Hc). cbn [negb]. by intros c' r' [= <- <-].
Qed.

Lemma no_c0_head_prefix (s t : str) : no_c0_head (s ++ t) -> no_c0_head s.
Proof. intros H c r ->. by apply (H c (r ++ t)). Qed.

Lemma safe_app (s t : str) : safe (s ++ t) <-> safe s /\ safe t.
Proof. apply Forall_app. Qed.

(** *** The scheme *)

Definition wf_scheme (scheme : str) : Prop :=
  scheme = []
  \/ (scheme <> [] /\ is_ascii_alpha (hd 0 scheme) = true
      /\ forallb is_scheme_char scheme = true /\ lower scheme = scheme).

Lemma scheme_chars_no_colon (s : str) :
  forallb is_scheme_char s = true -> 58 ∉ s.
Proof.
  induction s as [|c r IH]; cbn [forallb]; [intros _; apply not_elem_of_nil|].
  intros [Hc Hr]%andb_true_iff. apply not_elem_of_cons. split; [|by auto].
  intros Heq. by apply (scheme_char_not_colon c).
Qed.

Lemma scheme_chars_safe (s : str) : forallb is_scheme_char s = true -> safe s.
Proof.
  induction s as [|c r IH]; cbn [forallb]; [constructor|].
  intros [Hc Hr]%andb_true_iff. constructor; [by apply scheme_char_safe|by apply IH].
Qed.

Lemma split_scheme_build (scheme rest : str) :
  scheme <> [] -> is_ascii_alpha (hd 0 scheme) = true ->
  forallb is_scheme_char scheme = true -> lower scheme = scheme ->
  split_scheme (scheme ++ 58 :: rest) = Some (scheme, rest).
Proof.
  intros Hne Ha Hs Hl. unfold split_scheme.
  rewrite find_app by by apply scheme_chars_no_colon.
  rewrite take_app_length, Hs, Hl.
  rewrite cons_middle, app_assoc, drop_app_length'
    by (rewrite length_app; cbn; lia).
  destruct scheme as [|c r]; [done|]. cbn [hd app length] in *.
  by rewrite Ha.
Qed.

Lemma split_scheme_slash (r : str) : split_scheme (47 :: r) = None.
Proof.
  unfold split_scheme. destruct (find 58 (47 :: r)); [|done].
  cbn [hd]. by rewrite andb_false_r.
Qed.

Lemma split_scheme_prefix (s t : str) :
  split_scheme (s ++ t) = None -> split_scheme s = None.
Proof.
  unfold split_scheme. destruct (find 58 s) as [i|] eqn:Hf; [|done].
  rewrite (find_app_l _ _ t _ Hf).
  apply find_Some in Hf as (pre & post & -> & Hn & <-).
  rewrite <- app_assoc, !take_app_length.
  destruct pre as [|c pre]; [done|]. cbn [hd app].
  by destruct (_ && _).
Qed.

Lemma split_scheme_Some (u scheme rest : str) :
  split_scheme u = Some (scheme, rest) ->
  wf_scheme scheme /\ scheme <> [] /\ safe scheme
  /\ exists s0, u = s0 ++ 58 :: rest.
Proof.
  unfold split_scheme. destruct (find 58 u) as [i|] eqn:Hf; [|done].
  apply find_Some in Hf as (pre & post & -> & Hn & <-).
  rewrite take_app_length.
  rewrite cons_middle, app_assoc, drop_app_length'
    by (rewrite length_app; cbn; lia).
  destruct (_ && _) eqn:Hc; [|done]. intros [= <- <-].
  apply andb_true_iff in Hc as [[Hi Ha]%andb_true_iff Hs].
  destruct pre as [|c pre]; [done|]. cbn [hd app] in Ha.
  assert (forallb is_scheme_char (lower (c :: pre)) = true) as Hls.
  { clear -Hs. induction (c :: pre) as [|x l IH]; [done|].
    cbn [forallb lower map] in *. apply andb_true_iff in Hs as [Hx Hl].
    apply andb_true_iff. split; [by apply lower_char_scheme|by apply IH]. }
  split_and!.
  - right. split_and!; [done| | |].
    + cbn [lower map hd]. by apply lower_char_alpha.
    + done.
    + clear -Hs. induction (c :: pre) as [|x l IH]; [done|].
      cbn [forallb lower map] in *. apply andb_true_iff in Hs as [Hx Hl].
      f_equal; [by apply lower_char_idem|by apply IH].
  - done.
  - by apply scheme_chars_safe.
  - exists (c :: pre). by rewrite <- app_assoc.
Qed.


End UrlFacts.

(** *** urlshortener/tasks.py: [cache_popular_urls]

    [ShortLink.objects.filter(click_count__gte=30)
       .values_list('short_code', 'original_url')]: the two columns of
    the rows with at least 30 clicks, in the order of the table. *)
Definition popular_links (links : list ShortLink) : list (option str * str) :=
  map (fun l => (short_code l, original_url l))
      (List.filter (fun l => (30 <=? click_count l)%Z) links).

Definition cache_popular_urls (w : world) : world :=
  fold_left
    (fun w '(short_code, original_url) =>
       set_cache w (cache_set (the_cache w)
                      (lit "short_link_" ++ format_opt short_code)
                      (VStr original_url) (3600 * 24)))
    (popular_links (short_links (db w))) w.

(** *** urlshortener/urls.py

    The routes of [urlpatterns], matched in the order of the list against
    the part of the request path that is left for this URLconf. *)

Inductive view : Type :=
| ShortenURLAPI_view
| ClickReportAPI_view (short_code : str)
| RedirectView_view (short_code : str)
| AddLinkApi_view.

(** [<str:short_code>/] at the end of a route: a non-empty segment
    without [/], one [/], and the end of the path. *)
Definition match_str_slash (s : str) : option str :=
  match UrlParse.find 47 s with
  | Some i =>
      if Nat.ltb 0 i && bool_decide (drop (S i) s = []) then Some (take i s)
      else None
  | None => None
  end.

(** A literal prefix of a route. *)
Definition match_prefix (p s : str) : option str :=
  if bool_decide (take (length p) s = p) then Some (drop (length p) s)
  else None.

Definition urlpatterns : list (str -> option view) :=
  [ (fun path => if str_eqb path (lit "shorten/") then Some ShortenURLAPI_view
                 else None);
    (fun path => rest ← match_prefix (lit "report/") path;
                 short_code ← match_str_slash rest;
                 Some (ClickReportAPI_view short_code));
    (fun path => short_code ← match_str_slash path;
                 Some (RedirectView_view short_code));
    (fun path => if str_eqb path (lit "add_links/") then Some AddLinkApi_view
                 else None) ].

(** The first route that matches. *)
Fixpoint resolve_in (patterns : list (str -> option view)) (path : str)
  : option view :=
  match patterns with
  | [] => None
  | p :: rest =>
      match p path with
      | Some v => Some v
      | None => resolve_in rest path
      end
  end.

Definition resolve (path : str) : option view := resolve_in urlpatterns path.

(** *** urlshortener/add.py: [extract_links_data_to_models]
    (and the same loop in [AddLinkApi.get], urlshortener/views.py)

    The content of [json/links.json] is the argument [links]. Nothing
    runs in a transaction: what was created before an exception stays. *)

Inductive import_error : Type :=
| CodecError (e : pyerr)
| MultipleObjectsReturned.

Section LinkImport.

Variable SECRET_KEY : str.
Variable unquote : str -> str.
Variable URLValidator : str -> bool.

Definition next_campaign_id (l : list Campaign) : N :=
  1 + fold_right (fun c m => N.max (campaign_id c) m) 0 l.

(** [Campaign.objects.get_or_create(name=...)]; [name] is a unique
    column. *)
Definition Campaign_get_or_create (d : database) (name : str)
  : Campaign * database :=
  match List.find (fun c => str_eqb (campaign_name c) name) (campaigns d) with
  | Some c => (c, d)
  | None =>
      let c := mkCampaign (next_campaign_id (campaigns d)) name in
      (c, mkDatabase (campaigns d ++ [c]) (short_links d) (click_logs d)
                     (blocked_ips d))
  end.

(** The rows that [get(original_url=url, campaign=campaign)] looks at. *)
Definition matching_links (d : database) (url : str) (campaign : Campaign)
  : list ShortLink :=
  List.filter (fun l => str_eqb (original_url l) url
                        && bool_decide (link_campaign l
                                        = Some (campaign_id campaign)))
              (short_links d).

(** [ShortLink.objects.get_or_create(original_url=url, campaign=campaign)] *)
Definition ShortLink_get_or_create (d : database) (url : str)
    (campaign : Campaign) : (import_error + ShortLink * bool) * database :=
  match matching_links d url campaign with
  | [l] => (inr (l, false), d)
  | [] =>
      match ShortLink_create SECRET_KEY d url campaign with
      | Ok (l, d') => (inr (l, true), d')
      | Raise e => (inl (CodecError e), d)
      end
  | _ => (inl MultipleObjectsReturned, d)
  end.

Fixpoint import_links (links : list str) (campaign : Campaign) (d : database)
  : option import_error * database :=
  match links with
  | [] => (None, d)
  | link :: rest =>
      if is_valid_url unquote URLValidator (Some link) then
        match ShortLink_get_or_create d link campaign with
        | (inr _, d') => import_links rest campaign d'
        | (inl e, d') => (Some e, d')
        end
      else import_links rest campaign d
  end.

Definition extract_links_data_to_models (links : list str) (d : database)
  : option import_error * database :=
  let '(campaign, d) := Campaign_get_or_create d (lit "Digikala") in
  import_links links campaign d.

End LinkImport.

(** * Properties of the specification *)

(** ** The codec *)

Lemma signature_of_length (SECRET_KEY encoded_url signature : str) :
  signature_of SECRET_KEY encoded_url = Ok signature -> length signature = 4%nat.
Proof.
  unfold signature_of.
  destruct (str_encode SECRET_KEY) as [key|]; [|done].
  destruct (str_encode encoded_url) as [msg|]; [|done].
  cbn. intros [= <-].
  rewrite length_take, SHA256.hmac_hexdigest_length. done.
Qed.

(** What [generate_short_code] returns: the digits of the URL-safe base64
    encoding of the URL, without padding, followed by a signature of four
    characters. *)
Lemma generate_short_code_inv (SECRET_KEY original_url short_code : str) :
  generate_short_code SECRET_KEY original_url = Ok short_code ->
  exists url_bytes signature,
    str_encode original_url = Ok url_bytes
    /\ signature_of SECRET_KEY (b64_text url_bytes) = Ok signature
    /\ length signature = 4%nat
    /\ short_code = b64_text url_bytes ++ signature.
Proof.
  unfold generate_short_code.
  destruct (str_encode original_url) as [url_bytes|]; [|done].
  cbn [rbind]. pose proof (encoded_url_text url_bytes) as Ht.
  destruct (bytes_decode (urlsafe_b64encode url_bytes)) as [b64|]; [|done].
  cbn [rbind] in *. injection Ht as ->.
  destruct (signature_of SECRET_KEY (b64_text url_bytes)) as [sig|] eqn:Es; [|done].
  cbn. intros [= <-]. exists url_bytes, sig.
  eauto using signature_of_length.
Qed.

Lemma b64_text_nonempty (original_url : str) (url_bytes : bytes) :
  original_url <> [] -> str_encode original_url = Ok url_bytes ->
  (0 < length (b64_text url_bytes))%nat.
Proof.
  intros Hne He. unfold b64_text. rewrite !length_map.
  pose proof (b64_sextets_nonempty url_bytes
                (str_encode_nonempty _ _ Hne He)).
  destruct (b64_sextets url_bytes); [done|simpl; lia].
Qed.

(** The decoder restores the padding of the payload (one to four [=],
    four when its length is divisible by 4) and the lenient base64 decoder
    accepts it. *)
Lemma decode_short_code_generated (SECRET_KEY original_url short_code : str) :
  original_url <> [] ->
  generate_short_code SECRET_KEY original_url = Ok short_code ->
  decode_short_code SECRET_KEY short_code = Ok original_url.
Proof.
  intros Hne Hg.
  destruct (generate_short_code_inv _ _ _ Hg)
    as (url_bytes & sig & He & Hs & Hl & ->).
  pose proof (b64_text_nonempty _ _ Hne He) as Hpos.
  unfold decode_short_code. rewrite length_app, Hl.
  replace (length (b64_text url_bytes) + 4 - 4)%nat
    with (length (b64_text url_bytes)) by lia.
  destruct (Nat.leb_spec (length (b64_text url_bytes) + 4) 4) as [?|_]; [lia|].
  rewrite take_app_length, drop_app_length, Hs. cbn [rbind].
  unfold str_eqb. rewrite bool_decide_eq_true_2 by done. cbn [negb].
  rewrite urlsafe_b64decode_text. cbn [rbind].
  by rewrite (bytes_decode_str_encode _ _ He).
Qed.

(** C1. Round trip: for every non-empty URL [u] that [generate_short_code]
    encodes, decoding the short code gives [u] back, also when the base64
    encoding of [u] has a length divisible by 4 and the decoder adds four
    padding characters. *)
Theorem decode_generate_roundtrip (SECRET_KEY original_url short_code : str) :
  original_url <> [] ->
  generate_short_code SECRET_KEY original_url = Ok short_code ->
  decode_short_code SECRET_KEY short_code = Ok original_url.
Proof. apply decode_short_code_generated. Qed.

Lemma decode_generate_roundtrip_witness :
  lit "https://example.com/a" <> []
  /\ decode_short_code (lit "secret")
       (lit "aHR0cHM6Ly9leGFtcGxlLmNvbS9hbef1")
     = Ok (lit "https://example.com/a").
Proof.
  split; [done|].
  apply (decode_generate_roundtrip (lit "secret") (lit "https://example.com/a")).
  - done.
  - vm_compute. reflexivity.
Defined.

(** C5. Tamper detection: replacing any one of the four characters of the
    signature segment of a generated code by a different character makes
    [decode_short_code] raise the signature error. *)
Theorem decode_tampered_signature (SECRET_KEY original_url short_code : str)
    (i : nat) (c : N) :
  original_url <> [] ->
  generate_short_code SECRET_KEY original_url = Ok short_code ->
  (length short_code - 4 <= i < length short_code)%nat ->
  short_code !! i <> Some c ->
  decode_short_code SECRET_KEY (<[i := c]> short_code)
  = Raise (ValueError "Signature of short code is invalid").
Proof.
  intros Hne Hg Hi Hc.
  destruct (generate_short_code_inv _ _ _ Hg)
    as (url_bytes & sig & He & Hs & Hl & ->).
  pose proof (b64_text_nonempty _ _ Hne He) as Hpos.
  rewrite length_app, Hl in Hi.
  rewrite insert_app_r_alt by lia.
  rewrite lookup_app_r in Hc by lia.
  set (j := (i - length (b64_text url_bytes))%nat) in *.
  unfold decode_short_code.
  rewrite length_app, length_insert, Hl.
  replace (length (b64_text url_bytes) + 4 - 4)%nat
    with (length (b64_text url_bytes)) by lia.
  destruct (Nat.leb_spec (length (b64_text url_bytes) + 4) 4) as [?|_]; [lia|].
  rewrite take_app_length, drop_app_length, Hs. cbn [rbind].
  unfold str_eqb. rewrite bool_decide_eq_false_2; [done|].
  intros Heq. apply Hc. rewrite <- Heq.
  apply list_lookup_insert_eq. rewrite Hl. lia.
Qed.

Lemma decode_tampered_signature_witness :
  decode_short_code (lit "secret")
    (<[29%nat := 48]> (lit "aHR0cHM6Ly9leGFtcGxlLmNvbS9hbef1"))
  = Raise (ValueError "Signature of short code is invalid").
Proof.
  apply (decode_tampered_signature (lit "secret") (lit "https://example.com/a")).
  - done.
  - vm_compute. reflexivity.
  - vm_compute. lia.
  - vm_compute. discriminate.
Defined.

(** ** The abuse guard *)

(** On a miss of both cache keys, an address with an active entry makes
    [is_blocked_ip] subscript the boolean that [.exists()] returned: the
    call raises [TypeError], whatever the flags of the entry are, and the
    cache is left as it was. *)
Lemma is_blocked_ip_active_entry_raises (table : list BlockedIp) (c : cache)
    (ip url : str) :
  truthy (cache_get c (lit "blocked_ip_all_" ++ ip)) = false ->
  truthy (cache_get c (lit "blocked_ip_link_" ++ ip ++ lit "_" ++ url)) = false ->
  blocked_ip_exists table (Some ip) = true ->
  is_blocked_ip table c (Some ip) url
  = (Raise (TypeError "'bool' object is not subscriptable"), c).
Proof.
  intros H1 H2 H3. unfold is_blocked_ip. cbn [format_opt].
  rewrite H1, H2, H3. reflexivity.
Qed.

(** C3, evaluated on the code: the address 10.0.0.1 has an active entry
    with the global-block flag set and nothing is cached. The claim
    expects the verdict [True] and a cache entry with a lifetime of 900
    seconds; the code raises [TypeError] and writes nothing. *)
Theorem is_blocked_ip_global_block_raises (url : str) :
  let entry := mkBlockedIp (lit "10.0.0.1") true true [] true in
  is_blocked_ip [entry] ∅ (Some (lit "10.0.0.1")) url
  = (Raise (TypeError "'bool' object is not subscriptable"), ∅).
Proof.
  intros entry. apply is_blocked_ip_active_entry_raises; reflexivity.
Qed.

(** ** The redirect view *)

Lemma str_encode_raises (s : str) (e : pyerr) :
  str_encode s = Raise e -> e = UnicodeEncodeError.
Proof.
  induction s as [|c s IH]; [done|]. cbn [str_encode].
  destruct (utf8_encode_char c); [|by intros [= <-]].
  destruct (str_encode s); [done|]. cbn. intros [= <-]. by apply IH.
Qed.

(** Every exception that leaves [decode_short_code] is a [ValueError]
    (or the subclass [UnicodeEncodeError]). *)
Lemma decode_short_code_raises (SECRET_KEY code : str) (e : pyerr) :
  decode_short_code SECRET_KEY code = Raise e -> is_ValueError e = true.
Proof.
  unfold decode_short_code.
  destruct (Nat.leb _ _); [by intros [= <-]|].
  unfold signature_of.
  destruct (str_encode SECRET_KEY) as [key|e1] eqn:E1;
    [|cbn; intros [= <-]; by rewrite (str_encode_raises _ _ E1)].
  destruct (str_encode (take _ code)) as [msg|e2] eqn:E2;
    [|cbn; intros [= <-]; by rewrite (str_encode_raises _ _ E2)].
  cbn [rbind]. destruct (negb _); [by intros [= <-]|].
  destruct (rbind _ _); [done|by intros [= <-]].
Qed.

(** C6. A code that [decode_short_code] rejects and that is not cached
    gets a 400 response carrying the message of the error; the cache and
    the queue of click events (the whole state) are unchanged. *)
Theorem redirect_rejected_code (SECRET_KEY : str) (w : world)
    (request : request_data) (code : str) (e : pyerr) :
  the_cache w !! (lit "short_link_" ++ code) = None ->
  decode_short_code SECRET_KEY code = Raise e ->
  RedirectView_get SECRET_KEY w request code
  = (Ok (Response [("error", VStr (lit (exn_message e)))]%string 400), w).
Proof.
  intros Hc Hd. unfold RedirectView_get, cache_get.
  rewrite Hc, Hd. cbn [truthy except_ValueError].
  by rewrite (decode_short_code_raises _ _ _ Hd).
Qed.

Definition empty_world : world :=
  mkWorld (mkDatabase [] [] [] []) ∅ ∅ [].

Lemma redirect_rejected_code_witness :
  RedirectView_get (lit "secret") empty_world
    (mkRequest (Some (lit "10.0.0.1")) None (Some (lit "curl/8")))
    (lit "aHR0cHM6Ly9leGFtcGxlLmNvbS9hYg8a8e")
  = (Ok (Response [("error", VStr (lit "Signature of short code is invalid"))]%string
                  400),
     empty_world).
Proof.
  apply (redirect_rejected_code (lit "secret") empty_world _
           (lit "aHR0cHM6Ly9leGFtcGxlLmNvbS9hYg8a8e")
           (ValueError "Signature of short code is invalid")).
  - reflexivity.
  - vm_compute. reflexivity.
Defined.

(** ** The shorten view *)

(** The loop of the view calls [generate_short_code] with the same
    arguments at every iteration, so it holds the same code at every
    iteration: it ends at once, or not at all. *)
Lemma regenerate_while_exists_fixed (SECRET_KEY : str) (fuel : nat)
    (d : database) (url code : str) :
  generate_short_code SECRET_KEY url = Ok code ->
  regenerate_while_exists SECRET_KEY fuel d url code
  = if short_code_exists d code then None else Some (Ok code).
Proof.
  intros Hg. induction fuel as [|fuel IH]; cbn [regenerate_while_exists].
  - by destruct (short_code_exists d code).
  - rewrite Hg, IH. by destruct (short_code_exists d code).
Qed.

(** C10. [generate_short_code] is a function of the secret and of the URL
    alone (it reads no clock, counter or random source), so a second call
    returns the code of the first. For the retry loop of the shorten view
    this means: with any number of iterations allowed, it returns the code
    it was entered with when no link has that code, and it never returns
    when one has. *)
Theorem generate_short_code_deterministic (SECRET_KEY : str) (fuel : nat)
    (d : database) (url code : str) :
  generate_short_code SECRET_KEY url = Ok code ->
  (forall code', generate_short_code SECRET_KEY url = Ok code' -> code' = code)
  /\ regenerate_while_exists SECRET_KEY fuel d url code
     = if short_code_exists d code then None else Some (Ok code).
Proof.
  intros Hg. split.
  - intros code' Hg'. congruence.
  - by apply regenerate_while_exists_fixed.
Qed.

Definition example_campaign : Campaign := mkCampaign 1 (lit "Digikala").

Definition example_url : str := lit "https://example.com/a".
Definition example_code : str := lit "aHR0cHM6Ly9leGFtcGxlLmNvbS9hbef1".

(** A database in which [example_url] has a link with its code. *)
Definition example_database : database :=
  mkDatabase [example_campaign]
             [mkShortLink 1 example_url (Some example_code) (Some 1) 0]
             [] [].

Lemma generate_short_code_deterministic_witness :
  (forall code', generate_short_code (lit "secret") example_url = Ok code' ->
                 code' = example_code)
  /\ regenerate_while_exists (lit "secret") 1000 example_database
       example_url example_code = None.
Proof.
  apply (generate_short_code_deterministic (lit "secret") 1000
           example_database example_url example_code).
  vm_compute. reflexivity.
Defined.

Section ShortenProperties.

Variable SECRET_KEY : str.
Variable environ : gmap string (list N).
Variable bracketed_netloc_ok nfkc_netloc_ok : str -> bool.
Variable unquote : str -> str.
Variable URLValidator : str -> bool.

Local Abbreviation post :=
  (ShortenURLAPI_post SECRET_KEY environ bracketed_netloc_ok nfkc_netloc_ok
                      unquote URLValidator).

(** [settings.DOMAINS] does not exist: core/settings.py defines
    [ALLOWED_DOMAINS] and [DEFAULT_DOMAIN]. *)
Lemma settings_DOMAINS :
  settings_getattr SECRET_KEY environ "DOMAINS"
  = Raise (AttributeError "'Settings' object has no attribute 'DOMAINS'").
Proof. reflexivity. Qed.

(** C7, on the code: a request whose canonical URL and campaign already
    have a link does not get a 200 response. The view reads
    [settings.DOMAINS['local']] to build the full short URL, the
    attribute lookup raises [AttributeError] and the exception leaves the
    view. *)
Theorem shorten_existing_link_raises (fuel : nat) (w : world)
    (request : shorten_request) (url canonical_url : str) (cid : N)
    (campaign : Campaign) (existing_link : ShortLink) :
  data_url request = Some url -> url <> [] ->
  URLValidator (unquote url) = true ->
  data_campaign_id request = Some cid -> cid <> 0 ->
  canonicalize_url bracketed_netloc_ok nfkc_netloc_ok url = Ok canonical_url ->
  List.find (fun c => campaign_id c =? cid) (campaigns (db w)) = Some campaign ->
  List.find (fun l => str_eqb (original_url l) canonical_url
                      && bool_decide (link_campaign l = Some (campaign_id campaign)))
            (short_links (db w)) = Some existing_link ->
  post fuel w request
  = Some (Raise (AttributeError "'Settings' object has no attribute 'DOMAINS'"), w).
Proof.
  intros Hu Hne Hv Hc Hc0 Hcan Hcamp Hlink.
  unfold ShortenURLAPI_post, is_valid_url. rewrite Hu, Hc, Hcan, Hcamp, Hlink.
  destruct url as [|c0 url']; [done|].
  rewrite bool_decide_eq_false_2 by done. rewrite Hv. cbn [negb].
  destruct cid as [|p]; [done|].
  by rewrite settings_DOMAINS.
Qed.

(** Whenever the view answers 201, the code in the response decodes to
    the URL as it was submitted. *)
Lemma shorten_created_code_decodes (fuel : nat) (w w' : world)
    (request : shorten_request) (code : str) :
  post fuel w request
  = Some (Ok (Response [("short_url", VStr code)]%string 201), w') ->
  exists url, data_url request = Some url
              /\ decode_short_code SECRET_KEY code = Ok url.
Proof.
  unfold ShortenURLAPI_post.
  destruct (data_url request) as [[|c0 url']|]; [done| |done].
  set (url := c0 :: url').
  destruct (negb _); [done|].
  destruct (data_campaign_id request) as [[|p]|]; [done| |done].
  destruct (canonicalize_url _ _ url) as [canonical|]; [|done].
  destruct (List.find _ (campaigns _)) as [campaign|]; [|done].
  destruct (List.find _ (short_links _)) as [existing|].
  { destruct (rbind _ _); done. }
  destruct (ShortLink_create _ _ _ _) as [[short_link d1]|]; [|done].
  destruct (generate_short_code SECRET_KEY url) as [generated|] eqn:Hg; [|done].
  rewrite (regenerate_while_exists_fixed _ _ _ _ _ Hg).
  destruct (short_code_exists d1 generated); [done|].
  destruct (ShortLink_update _ _ _) as [d2|]; [|done].
  intros [= <- _]. exists url. split; [done|].
  by apply decode_short_code_generated.
Qed.

End ShortenProperties.

Lemma shorten_existing_link_raises_witness :
  ShortenURLAPI_post (lit "secret") ∅ (fun _ => true) (fun _ => true)
    (fun u => u) (fun _ => true) 10
    (mkWorld example_database ∅ ∅ [])
    (mkShorten (Some (lit "https://example.com/a?x=1")) (Some 1))
  = Some (Raise (AttributeError "'Settings' object has no attribute 'DOMAINS'"),
          mkWorld example_database ∅ ∅ []).
Proof.
  apply (shorten_existing_link_raises (lit "secret") ∅ (fun _ => true)
           (fun _ => true) (fun u => u) (fun _ => true) 10
           (mkWorld example_database ∅ ∅ [])
           (mkShorten (Some (lit "https://example.com/a?x=1")) (Some 1))
           (lit "https://example.com/a?x=1") example_url 1 example_campaign
           (mkShortLink 1 example_url (Some example_code) (Some 1) 0)).
  - reflexivity.
  - vm_compute. discriminate.
  - reflexivity.
  - reflexivity.
  - lia.
  - vm_compute. reflexivity.
  - reflexivity.
  - vm_compute. reflexivity.
Defined.

Definition scenario_url : str := lit "https://example.com/a?x=1#frag".
Definition scenario_code : str :=
  lit "aHR0cHM6Ly9leGFtcGxlLmNvbS9hP3g9MSNmcmFn73cd".

(** C4, on the code: scenario 1 of the specification, with campaign 1 in
    an otherwise empty database and the secret ["secret"]. The link is
    stored with the canonical URL [https://example.com/a], but the code in
    the 201 response is the code of the URL as submitted, and it decodes
    to [https://example.com/a?x=1#frag], not to the canonical URL. *)
Theorem shorten_scenario_code_of_raw_url (environ : gmap string (list N))
    (bracketed_netloc_ok nfkc_netloc_ok : str -> bool)
    (unquote : str -> str) (URLValidator : str -> bool) (fuel : nat) :
  URLValidator (unquote scenario_url) = true ->
  let w0 := mkWorld (mkDatabase [example_campaign] [] [] []) ∅ ∅ [] in
  let stored := mkShortLink 1 example_url (Some scenario_code) (Some 1) 0 in
  ShortenURLAPI_post (lit "secret") environ bracketed_netloc_ok nfkc_netloc_ok
    unquote URLValidator fuel w0 (mkShorten (Some scenario_url) (Some 1))
  = Some (Ok (Response [("short_url", VStr scenario_code)]%string 201),
          mkWorld (mkDatabase [example_campaign] [stored] [] []) ∅ ∅ [])
  /\ decode_short_code (lit "secret") scenario_code = Ok scenario_url
  /\ scenario_url <> example_url.
Proof.
  intros Hv w0 stored. split; [|split].
  - remember scenario_url as url eqn:Hurl.
    unfold ShortenURLAPI_post, is_valid_url. cbn [data_url data_campaign_id].
    destruct url as [|c0 url']; [by vm_compute in Hurl|].
    rewrite bool_decide_eq_false_2 by done. rewrite Hv. cbn [negb].
    rewrite Hurl.
    destruct fuel; vm_compute; reflexivity.
  - vm_compute. reflexivity.
  - vm_compute. discriminate.
Qed.

Lemma shorten_scenario_code_of_raw_url_witness :
  ShortenURLAPI_post (lit "secret") ∅ (fun _ => true) (fun _ => true)
    (fun u => u) (fun _ => true) 10
    (mkWorld (mkDatabase [example_campaign] [] [] []) ∅ ∅ [])
    (mkShorten (Some scenario_url) (Some 1))
  = Some (Ok (Response [("short_url", VStr scenario_code)]%string 201),
          mkWorld (mkDatabase [example_campaign]
                     [mkShortLink 1 example_url (Some scenario_code) (Some 1) 0]
                     [] []) ∅ ∅ [])
  /\ decode_short_code (lit "secret") scenario_code = Ok scenario_url
  /\ scenario_url <> example_url.
Proof.
  apply (shorten_scenario_code_of_raw_url ∅ (fun _ => true) (fun _ => true)
           (fun u => u) (fun _ => true) 10).
  reflexivity.
Defined.

(** ** The click pipeline *)

Lemma ascii_bytes_urlsafe_b64encode (bs : bytes) :
  ascii_bytes (urlsafe_b64encode bs).
Proof.
  rewrite urlsafe_b64encode_split. apply Forall_app.
  split; [|apply ascii_bytes_pad].
  apply ascii_bytes_digits, b64_sextets_lt.
Qed.

Section ClickPipeline.

Variable environ : gmap string (list N).
Variable zlib_compress : bytes -> bytes.
Variable zlib_decompress : bytes -> result bytes.

(** The contract of [zlib]: decompression inverts compression. *)
Hypothesis zlib_roundtrip : forall b, zlib_decompress (zlib_compress b) = Ok b.

Lemma compress_url_inv (url compressed_url : str) :
  compress_url zlib_compress url = Ok compressed_url ->
  exists url_bytes,
    str_encode url = Ok url_bytes
    /\ compressed_url
       = map Byte.to_N (urlsafe_b64encode (zlib_compress url_bytes)).
Proof.
  unfold compress_url.
  destruct (str_encode url) as [url_bytes|]; [|done]. cbn [rbind].
  rewrite bytes_decode_ascii by apply ascii_bytes_urlsafe_b64encode.
  intros [= <-]. by exists url_bytes.
Qed.

Lemma decompress_url_compressed (url compressed_url : str) :
  compress_url zlib_compress url = Ok compressed_url ->
  decompress_url zlib_decompress compressed_url = Ok url.
Proof.
  intros (url_bytes & He & ->)%compress_url_inv.
  unfold decompress_url.
  rewrite str_encode_ascii by apply ascii_bytes_urlsafe_b64encode.
  cbn [rbind]. rewrite urlsafe_b64decode_encode. cbn [rbind].
  rewrite zlib_roundtrip. cbn [rbind].
  by apply bytes_decode_str_encode.
Qed.

End ClickPipeline.

(** C9. The compression that keys the click accumulator is lossless: for
    every URL that [compress_url] accepts, [decompress_url] gives the URL
    back. [zlib] is a parameter, with its contract as the hypothesis; the
    UTF-8 and base64 layers around it are those of the code. *)
Theorem decompress_compress_url (zlib_compress : bytes -> bytes)
    (zlib_decompress : bytes -> result bytes) (url compressed_url : str) :
  (forall b, zlib_decompress (zlib_compress b) = Ok b) ->
  compress_url zlib_compress url = Ok compressed_url ->
  decompress_url zlib_decompress compressed_url = Ok url.
Proof. intros Hz. by apply decompress_url_compressed. Qed.

(** A stand-in for [zlib]: the stored data behind the two-byte header
    [78 9c]. *)
Definition stored_compress (b : bytes) : bytes := x78 :: x9c :: b.
Definition stored_decompress (b : bytes) : result bytes :=
  match b with
  | x78 :: x9c :: r => Ok r
  | _ => Raise (ZlibError "incorrect header check")
  end.

Lemma decompress_compress_url_witness :
  decompress_url stored_decompress (lit "eJxodHRwczovL2V4YW1wbGUuY29tL2E=")
  = Ok example_url.
Proof.
  apply (decompress_compress_url stored_compress stored_decompress example_url).
  - reflexivity.
  - vm_compute. reflexivity.
Defined.

Section Reconciliation.

Variable environ : gmap string (list N).
Variable zlib_compress : bytes -> bytes.
Variable zlib_decompress : bytes -> result bytes.

Lemma log_click_short_links (w : world) (url : str) (r : request_data) :
  short_links (db (log_click zlib_compress w url r).2) = short_links (db w).
Proof.
  unfold log_click. destruct (HTTP_USER_AGENT r); [|done].
  by destruct (rbind _ _).
Qed.

Lemma log_click_redis (w : world) (url : str) (r : request_data) (key : str) :
  key <> REDIS_CLICK_KEY ->
  redis (log_click zlib_compress w url r).2 !! key = redis w !! key.
Proof.
  intros Hk. unfold log_click. destruct (HTTP_USER_AGENT r); [|done].
  destruct (rbind _ _); [|done]. cbn. unfold hincrby.
  by rewrite lookup_insert_ne.
Qed.

Lemma log_clicks_short_links (n : nat) (w : world) (url : str) (r : request_data) :
  short_links (db (log_clicks zlib_compress n w url r)) = short_links (db w).
Proof.
  revert w. induction n as [|n IH]; intros w; [done|].
  cbn [log_clicks]. by rewrite IH, log_click_short_links.
Qed.

Lemma log_clicks_redis (n : nat) (w : world) (url : str) (r : request_data)
    (key : str) :
  key <> REDIS_CLICK_KEY ->
  redis (log_clicks zlib_compress n w url r) !! key = redis w !! key.
Proof.
  intros Hk. revert w. induction n as [|n IH]; intros w; [done|].
  cbn [log_clicks]. by rewrite IH, log_click_redis.
Qed.

(** With [REDIS_CLICK_KEY] not set in the environment, the job reads the
    hash [click_count]; when that hash is missing it returns [False] and
    changes nothing. *)
Lemma count_log_click_default_key (w : world) :
  environ !! "REDIS_CLICK_KEY"%string = None ->
  redis w !! lit "click_count" = None ->
  count_log_click environ zlib_decompress w = (false, w).
Proof.
  intros He Hr. unfold count_log_click, getenv, hgetall.
  rewrite He, Hr. by rewrite bool_decide_eq_true_2.
Qed.

End Reconciliation.

(** C2, on the code: [log_click] increments a field of the hash
    [shortlink_click_count] (the module constant [REDIS_CLICK_KEY]), while
    [count_log_click] reads and deletes the hash named by the environment
    variable [REDIS_CLICK_KEY], by default [click_count]. With the
    variable not set, [n] clicks followed by one run of the job leave
    every [ShortLink] row as it was: the job finds no data and returns
    [False]. *)
Theorem clicks_not_counted_with_default_key (environ : gmap string (list N))
    (zlib_compress : bytes -> bytes) (zlib_decompress : bytes -> result bytes)
    (n : nat) (w : world) (url : str) (r : request_data) :
  environ !! "REDIS_CLICK_KEY"%string = None ->
  redis w !! lit "click_count" = None ->
  let w1 := log_clicks zlib_compress n w url r in
  let (done, w2) := count_log_click environ zlib_decompress w1 in
  done = false /\ short_links (db w2) = short_links (db w).
Proof.
  intros He Hr w1.
  rewrite count_log_click_default_key; [|done|].
  - split; [done|]. apply log_clicks_short_links.
  - unfold w1. rewrite log_clicks_redis; [done|]. by vm_compute.
Qed.

Definition example_request : request_data :=
  mkRequest (Some (lit "10.0.0.1")) None (Some (lit "curl/8")).

Lemma clicks_not_counted_with_default_key_witness :
  let w := mkWorld example_database ∅ ∅ [] in
  let w1 := log_clicks stored_compress 3 w example_url example_request in
  (count_log_click ∅ stored_decompress w1).1 = false
  /\ short_links (db (count_log_click ∅ stored_decompress w1).2)
     = [mkShortLink 1 example_url (Some example_code) (Some 1) 0].
Proof.
  intros w w1.
  pose proof (clicks_not_counted_with_default_key ∅ stored_compress
                stored_decompress 3 w example_url example_request
                eq_refl eq_refl) as H.
  fold w1 in H. cbv zeta in H.
  destruct (count_log_click ∅ stored_decompress w1) as [done w2].
  exact H.
Defined.

(** * Further properties of the code *)

(** ** The codec (urlshortener/models.py) *)

(** Characters that need no escaping in a URL path: letters, digits,
    [-] and [_]. *)
Definition url_safe_char (c : N) : bool :=
  ((48 <=? c) && (c <=? 57)) || ((65 <=? c) && (c <=? 90))
  || ((97 <=? c) && (c <=? 122)) || (c =? 45) || (c =? 95).

Lemma url_digit_safe (s : N) :
  s < 64 -> url_safe_char (Byte.to_N (url_digit s)) = true.
Proof.
  apply (N_forall_below 64 (fun s => url_safe_char (Byte.to_N (url_digit s)))).
  vm_compute. reflexivity.
Qed.

Lemma hex_digit_safe (d : N) : d < 16 -> url_safe_char (SHA256.hex_digit d) = true.
Proof.
  apply (N_forall_below 16 (fun d => url_safe_char (SHA256.hex_digit d))).
  vm_compute. reflexivity.
Qed.

Lemma hex_safe (bs : bytes) : Forall (fun c => url_safe_char c = true) (SHA256.hex bs).
Proof.
  induction bs as [|b r IH]; cbn [SHA256.hex]; [constructor|].
  pose proof (to_N_lt b).
  constructor; [apply hex_digit_safe; div_mod_lia|].
  constructor; [apply hex_digit_safe; div_mod_lia|done].
Qed.

Lemma b64_text_safe (bs : bytes) :
  Forall (fun c => url_safe_char c = true) (b64_text bs).
Proof.
  unfold b64_text. rewrite !Forall_map.
  eapply Forall_impl; [apply b64_sextets_lt|].
  intros s Hs. by apply url_digit_safe.
Qed.

(** X1. A generated short code consists of letters, digits, [-] and [_]
    only: it has no [/], [=], [?] or [#] and can be used as it is as a
    path segment of the redirect URL. *)
Theorem generate_short_code_url_safe (SECRET_KEY original_url short_code : str) :
  generate_short_code SECRET_KEY original_url = Ok short_code ->
  Forall (fun c => url_safe_char c = true) short_code.
Proof.
  intros (url_bytes & sig & He & Hs & Hl & ->)%generate_short_code_inv.
  apply Forall_app. split; [apply b64_text_safe|].
  unfold signature_of in Hs.
  destruct (str_encode SECRET_KEY) as [key|]; [|done].
  destruct (str_encode (b64_text url_bytes)) as [msg|]; [|done].
  cbn in Hs. injection Hs as <-.
  apply Forall_take, hex_safe.
Qed.

Lemma generate_short_code_url_safe_witness :
  Forall (fun c => url_safe_char c = true) example_code.
Proof.
  apply (generate_short_code_url_safe (lit "secret") example_url).
  vm_compute. reflexivity.
Defined.

(** X2. Distinct URLs never share a short code: [generate_short_code] is
    injective in the URL for a fixed secret. *)
Theorem generate_short_code_injective (SECRET_KEY url1 url2 short_code : str) :
  generate_short_code SECRET_KEY url1 = Ok short_code ->
  generate_short_code SECRET_KEY url2 = Ok short_code ->
  url1 = url2.
Proof.
  intros (b1 & sig1 & He1 & _ & Hl1 & ->)%generate_short_code_inv
         (b2 & sig2 & He2 & _ & Hl2 & Heq)%generate_short_code_inv.
  apply app_inj_2 in Heq as [Ht _]; [|congruence].
  assert (Ok b1 = Ok b2) as [= ->].
  { rewrite <- (urlsafe_b64decode_text b1), <- (urlsafe_b64decode_text b2).
    by rewrite Ht. }
  apply bytes_decode_str_encode in He1, He2. congruence.
Qed.

Lemma generate_short_code_injective_witness :
  example_url = lit "https://example.com/a".
Proof.
  apply (generate_short_code_injective (lit "secret") example_url
           (lit "https://example.com/a") example_code);
    vm_compute; reflexivity.
Defined.

(** X3. The empty URL is the one input on which the round trip fails: its
    code is the bare signature, four characters long, and
    [decode_short_code] rejects every code of at most four characters. *)
Theorem decode_code_of_empty_url (SECRET_KEY short_code : str) :
  generate_short_code SECRET_KEY [] = Ok short_code ->
  length short_code = 4%nat
  /\ decode_short_code SECRET_KEY short_code
     = Raise (ValueError "Short code is invalid").
Proof.
  intros (url_bytes & sig & He & _ & Hl & ->)%generate_short_code_inv.
  cbn in He. injection He as <-.
  change (b64_text []) with (@nil N). cbn [app].
  split; [done|]. unfold decode_short_code. by rewrite Hl.
Qed.

Lemma decode_code_of_empty_url_witness :
  length (lit "f9e6") = 4%nat
  /\ decode_short_code (lit "secret") (lit "f9e6")
     = Raise (ValueError "Short code is invalid").
Proof.
  apply (decode_code_of_empty_url (lit "secret") (lit "f9e6")).
  vm_compute. reflexivity.
Defined.



(** ** The abuse guard (urlshortener/models.py) *)

(** The branches of [is_blocked_ip]. *)
Lemma is_blocked_ip_cases_eq (table : list BlockedIp) (c : cache)
    (ip : option str) (url : str) :
  is_blocked_ip table c ip url
  = if truthy (cache_get c (lit "blocked_ip_all_" ++ format_opt ip))
       || truthy (cache_get c (lit "blocked_ip_link_" ++ format_opt ip
                               ++ lit "_" ++ url))
    then (Ok true, c)
    else if blocked_ip_exists table ip
         then (Raise (TypeError "'bool' object is not subscriptable"), c)
         else (Ok false, c).
Proof.
  unfold is_blocked_ip.
  destruct (truthy (cache_get c (lit "blocked_ip_all_" ++ format_opt ip)));
    [done|].
  destruct (truthy (cache_get c _)); [done|].
  by destruct (blocked_ip_exists table ip).
Qed.

(** X5. [is_blocked_ip] never writes to the cache: its two [cache.set]
    calls come after the subscript that raises, so no verdict is ever
    stored by it. *)
Theorem is_blocked_ip_cache_unchanged (table : list BlockedIp) (c : cache)
    (ip : option str) (url : str) :
  (is_blocked_ip table c ip url).2 = c.
Proof.
  rewrite is_blocked_ip_cases_eq.
  destruct (_ || _); [done|]. by destruct (blocked_ip_exists table ip).
Qed.

(** X6. The table of blocked addresses alone blocks nobody: when
    [is_blocked_ip] answers [True], a verdict was already in the cache. *)
Theorem is_blocked_ip_true_from_cache (table : list BlockedIp) (c c' : cache)
    (ip : option str) (url : str) :
  is_blocked_ip table c ip url = (Ok true, c') ->
  truthy (cache_get c (lit "blocked_ip_all_" ++ format_opt ip)) = true
  \/ truthy (cache_get c (lit "blocked_ip_link_" ++ format_opt ip
                          ++ lit "_" ++ url)) = true.
Proof.
  rewrite is_blocked_ip_cases_eq.
  destruct (truthy (cache_get c (lit "blocked_ip_all_" ++ format_opt ip)));
    [by left|].
  destruct (truthy (cache_get c _)); [by right|]. cbn [orb].
  by destruct (blocked_ip_exists table ip).
Qed.

Definition blocked_cache : cache :=
  cache_set ∅ (lit "blocked_ip_all_" ++ lit "10.0.0.1") (VBool true) 900.

Lemma blocked_cache_verdict :
  truthy (cache_get blocked_cache (lit "blocked_ip_all_" ++ lit "10.0.0.1")) = true.
Proof.
  unfold cache_get, blocked_cache, cache_set. by rewrite lookup_insert_eq.
Qed.

Lemma is_blocked_ip_true_from_cache_witness :
  truthy (cache_get blocked_cache (lit "blocked_ip_all_" ++ lit "10.0.0.1")) = true
  \/ truthy (cache_get blocked_cache
               (lit "blocked_ip_link_" ++ lit "10.0.0.1" ++ lit "_" ++ example_url))
     = true.
Proof.
  apply (is_blocked_ip_true_from_cache [] blocked_cache blocked_cache
           (Some (lit "10.0.0.1")) example_url).
  rewrite is_blocked_ip_cases_eq. cbn [format_opt].
  by rewrite blocked_cache_verdict.
Defined.

(** ** The redirect view (urlshortener/views.py) *)



Lemma set_cache_same (w : world) : set_cache w (the_cache w) = w.
Proof. by destruct w. Qed.

Lemma short_link_key_not_verdict_all (code ip : str) :
  lit "blocked_ip_all_" ++ ip <> lit "short_link_" ++ code.
Proof. intros H. cbv in H. discriminate. Qed.













(** X10. A client with a cached global verdict gets the 403 answer for a
    valid code; the destination is not cached and no click is enqueued:
    the state is unchanged. *)
Theorem redirect_blocked_by_verdict (SECRET_KEY : str) (w : world)
    (request : request_data) (code url : str) :
  the_cache w !! (lit "short_link_" ++ code) = None ->
  decode_short_code SECRET_KEY code = Ok url ->
  truthy (cache_get (the_cache w)
            (lit "blocked_ip_all_" ++ format_opt (REMOTE_ADDR request))) = true ->
  RedirectView_get SECRET_KEY w request code
  = (Ok (Response [("status", VStr (lit "blocked"))]%string 403), w).
Proof.
  intros Hc Hd Hv. unfold RedirectView_get, cache_get at 1.
  rewrite Hc, Hd. cbn [truthy].
  rewrite is_blocked_ip_cases_eq, Hv. cbn [orb except_ValueError].
  by rewrite set_cache_same.
Qed.

Definition blocked_world : world :=
  mkWorld (mkDatabase [] [] [] []) blocked_cache ∅ [].

Lemma redirect_blocked_by_verdict_witness :
  RedirectView_get (lit "secret") blocked_world example_request example_code
  = (Ok (Response [("status", VStr (lit "blocked"))]%string 403), blocked_world).
Proof.
  apply (redirect_blocked_by_verdict (lit "secret") blocked_world
           example_request example_code example_url).
  - unfold blocked_world, blocked_cache, cache_set, the_cache.
    rewrite lookup_insert_ne by apply short_link_key_not_verdict_all.
    apply lookup_empty.
  - vm_compute. reflexivity.
  - apply blocked_cache_verdict.
Defined.

(** X11. A client whose address has an active entry in the table, and no
    cached verdict, gets no 403: on a valid code the [TypeError] of
    [is_blocked_ip] is not a [ValueError], so it leaves the view (a server
    error), and nothing is cached or enqueued. *)
Theorem redirect_active_entry_raises (SECRET_KEY : str) (w : world)
    (request : request_data) (code url : str) :
  the_cache w !! (lit "short_link_" ++ code) = None ->
  decode_short_code SECRET_KEY code = Ok url ->
  truthy (cache_get (the_cache w)
            (lit "blocked_ip_all_" ++ format_opt (REMOTE_ADDR request))) = false ->
  truthy (cache_get (the_cache w)
            (lit "blocked_ip_link_" ++ format_opt (REMOTE_ADDR request)
             ++ lit "_" ++ url)) = false ->
  blocked_ip_exists (blocked_ips (db w)) (REMOTE_ADDR request) = true ->
  RedirectView_get SECRET_KEY w request code
  = (Raise (TypeError "'bool' object is not subscriptable"), w).
Proof.
  intros Hc Hd H1 H2 H3. unfold RedirectView_get, cache_get at 1.
  rewrite Hc, Hd. cbn [truthy].
  rewrite is_blocked_ip_cases_eq, H1, H2, H3. cbn [orb except_ValueError is_ValueError].
  by rewrite set_cache_same.
Qed.

Definition listed_world : world :=
  mkWorld (mkDatabase [] [] []
             [mkBlockedIp (lit "10.0.0.1") true true [] true]) ∅ ∅ [].

Lemma redirect_active_entry_raises_witness :
  RedirectView_get (lit "secret") listed_world example_request example_code
  = (Raise (TypeError "'bool' object is not subscriptable"), listed_world).
Proof.
  apply (redirect_active_entry_raises (lit "secret") listed_world
           example_request example_code example_url).
  - reflexivity.
  - vm_compute. reflexivity.
  - reflexivity.
  - reflexivity.
  - reflexivity.
Defined.

(** ** The shorten view (urlshortener/views.py) *)

Section ShortenFurther.

Variable SECRET_KEY : str.
Variable environ : gmap string (list N).
Variable bracketed_netloc_ok nfkc_netloc_ok : str -> bool.
Variable unquote : str -> str.
Variable URLValidator : str -> bool.

Local Abbreviation post :=
  (ShortenURLAPI_post SECRET_KEY environ bracketed_netloc_ok nfkc_netloc_ok
                      unquote URLValidator).

(** X12. A request that the view answers with status 400 changes nothing:
    no link is created and the cache, the Redis hash and the task queue
    are as before. *)
Theorem shorten_rejected_unchanged (fuel : nat) (w w' : world)
    (request : shorten_request) (body : list (string * pyval)) :
  post fuel w request = Some (Ok (Response body 400), w') -> w' = w.
Proof.
  unfold ShortenURLAPI_post, error_response.
  destruct (data_url request) as [[|c0 url']|]; [by intros [= _ <-]| |by intros [= _ <-]].
  destruct (negb _); [by intros [= _ <-]|].
  destruct (data_campaign_id request) as [[|p]|];
    [by intros [= _ <-]| |by intros [= _ <-]].
  destruct (canonicalize_url _ _ _) as [canonical|]; [|done].
  destruct (List.find _ (campaigns _)) as [campaign|]; [|by intros [= _ <-]].
  destruct (List.find _ (short_links _)) as [existing|].
  { destruct (rbind _ _); done. }
  destruct (ShortLink_create _ _ _ _) as [[short_link d1]|]; [|done].
  destruct (generate_short_code SECRET_KEY _) as [generated|]; [|done].
  destruct (regenerate_while_exists _ _ _ _ _) as [[code|]|]; [|done|done].
  destruct (ShortLink_update _ _ _) as [d2|]; done.
Qed.

(** X13. A URL that is new for its campaign and that is its own canonical
    form (it has no query string and no fragment to strip) gets no answer
    at all: [ShortLink.objects.create] has saved the row with the code of
    that URL, the view generates the same code, and its loop waits for
    that code to be free. No number of iterations ends it. *)
Theorem shorten_canonical_url_never_returns (fuel : nat) (w : world)
    (request : shorten_request) (url code : str) (cid : N) (campaign : Campaign) :
  data_url request = Some url -> url <> [] ->
  URLValidator (unquote url) = true ->
  data_campaign_id request = Some cid -> cid <> 0 ->
  canonicalize_url bracketed_netloc_ok nfkc_netloc_ok url = Ok url ->
  List.find (fun c => campaign_id c =? cid) (campaigns (db w)) = Some campaign ->
  List.find (fun l => str_eqb (original_url l) url
                      && bool_decide (link_campaign l = Some (campaign_id campaign)))
            (short_links (db w)) = None ->
  generate_short_code SECRET_KEY url = Ok code ->
  post fuel w request = None.
Proof.
  intros Hu Hne Hv Hc Hc0 Hcan Hcamp Hlink Hg.
  unfold ShortenURLAPI_post, is_valid_url. rewrite Hu, Hc, Hcan, Hcamp, Hlink.
  destruct url as [|c0 url']; [done|].
  rewrite bool_decide_eq_false_2 by done. rewrite Hv. cbn [negb].
  destruct cid as [|p]; [done|].
  unfold ShortLink_create, ShortLink_save_code. cbn [short_code original_url].
  rewrite Hg. cbn [rbind].
  rewrite (regenerate_while_exists_fixed _ _ _ _ _ Hg).
  unfold short_code_exists. cbn [short_links set_short_links].
  rewrite existsb_app. cbn [existsb short_code].
  rewrite bool_decide_eq_true_2 by done.
  by rewrite orb_true_r.
Qed.

End ShortenFurther.

Lemma shorten_rejected_unchanged_witness :
  let w := mkWorld example_database ∅ ∅ [] in
  let request := mkShorten (Some example_url) (Some 7) in
  let body := [("error", VStr (lit "Invalid campaign ID"))]%string in
  ShortenURLAPI_post (lit "secret") ∅ (fun _ => true) (fun _ => true)
    (fun u => u) (fun _ => true) 10 w request
  = Some (Ok (Response body 400), w)
  /\ w = w.
Proof.
  intros w request body.
  assert (ShortenURLAPI_post (lit "secret") ∅ (fun _ => true) (fun _ => true)
            (fun u => u) (fun _ => true) 10 w request
          = Some (Ok (Response body 400), w)) as H
    by (vm_compute; reflexivity).
  split; [exact H|].
  exact (shorten_rejected_unchanged (lit "secret") ∅ (fun _ => true)
           (fun _ => true) (fun u => u) (fun _ => true) 10 w w request body H).
Defined.

Lemma shorten_canonical_url_never_returns_witness :
  ShortenURLAPI_post (lit "secret") ∅ (fun _ => true) (fun _ => true)
    (fun u => u) (fun _ => true) 1000
    (mkWorld (mkDatabase [example_campaign] [] [] []) ∅ ∅ [])
    (mkShorten (Some example_url) (Some 1))
  = None.
Proof.
  apply (shorten_canonical_url_never_returns (lit "secret") ∅ (fun _ => true)
           (fun _ => true) (fun u => u) (fun _ => true) 1000
           (mkWorld (mkDatabase [example_campaign] [] [] []) ∅ ∅ [])
           (mkShorten (Some example_url) (Some 1))
           example_url example_code 1 example_campaign).
  - reflexivity.
  - vm_compute. discriminate.
  - reflexivity.
  - reflexivity.
  - lia.
  - vm_compute. reflexivity.
  - reflexivity.
  - reflexivity.
  - vm_compute. reflexivity.
Defined.

Lemma next_id_above (l : list ShortLink) :
  Forall (fun r => link_id r < next_id l) l.
Proof.
  unfold next_id. induction l as [|r l IH]; [constructor|].
  cbn [fold_right]. constructor; [lia|].
  eapply Forall_impl; [exact IH|]. cbn. intros x Hx. lia.
Qed.

Lemma generated_code_nonempty (SECRET_KEY url code : str) :
  generate_short_code SECRET_KEY url = Ok code -> exists c r, code = c :: r.
Proof.
  intros (url_bytes & sig & _ & _ & Hl & ->)%generate_short_code_inv.
  destruct (b64_text url_bytes) as [|c r]; [|by eauto].
  destruct sig as [|c r]; [done|by eauto].
Qed.

Section ShortenCreation.

Variable SECRET_KEY : str.
Variable environ : gmap string (list N).
Variable bracketed_netloc_ok nfkc_netloc_ok : str -> bool.
Variable unquote : str -> str.
Variable URLValidator : str -> bool.

Local Abbreviation post :=
  (ShortenURLAPI_post SECRET_KEY environ bracketed_netloc_ok nfkc_netloc_ok
                      unquote URLValidator).

(** X14. What a 201 answer leaves behind: the table of links has exactly
    one more row, with a fresh primary key, the canonical form of the
    submitted URL, the campaign of the request, the code of the response
    and a click count of zero; the rows that were there, the cache, the
    Redis hash and the task queue are untouched. *)
Theorem shorten_created_row (fuel : nat) (w w' : world)
    (request : shorten_request) (code : str) :
  post fuel w request
  = Some (Ok (Response [("short_url", VStr code)]%string 201), w') ->
  exists url canonical_url cid,
    data_url request = Some url
    /\ data_campaign_id request = Some cid
    /\ canonicalize_url bracketed_netloc_ok nfkc_netloc_ok url = Ok canonical_url
    /\ short_links (db w')
       = short_links (db w)
         ++ [mkShortLink (next_id (short_links (db w))) canonical_url
                         (Some code) (Some cid) 0]
    /\ campaigns (db w') = campaigns (db w)
    /\ the_cache w' = the_cache w /\ redis w' = redis w /\ queue w' = queue w.
Proof.
  unfold ShortenURLAPI_post.
  destruct (data_url request) as [[|c0 url']|]; [done| |done].
  set (url := c0 :: url').
  destruct (negb _); [done|].
  destruct (data_campaign_id request) as [[|p]|]; [done| |done].
  destruct (canonicalize_url _ _ url) as [canonical|] eqn:Hcan; [|done].
  destruct (List.find _ (campaigns _)) as [campaign|] eqn:Hcamp; [|done].
  apply List.find_some in Hcamp as [_ Hcid%N.eqb_eq].
  destruct (List.find _ (short_links _)) as [existing|].
  { destruct (rbind _ _); done. }
  unfold ShortLink_create, ShortLink_save_code at 1. cbn [short_code original_url].
  destruct (generate_short_code SECRET_KEY canonical) as [code0|]; [|done].
  cbn [rbind].
  destruct (generate_short_code SECRET_KEY url) as [generated|] eqn:Hg; [|done].
  rewrite (regenerate_while_exists_fixed _ _ _ _ _ Hg).
  destruct (short_code_exists _ generated); [done|].
  unfold ShortLink_update, ShortLink_save_code.
  cbn [short_code link_id original_url link_campaign click_count].
  destruct (generated_code_nonempty _ _ _ Hg) as (g0 & gr & Hgen).
  rewrite Hgen at 1. cbn [rbind].
  intros [= <- <-]. exists url, canonical, (N.pos p).
  split_and!; try done.
  cbn [db set_db short_links set_short_links].
  rewrite map_app. cbn [map link_id]. rewrite N.eqb_refl, Hcid. f_equal.
  rewrite <- (map_id (short_links (db w))) at 2.
  apply map_ext_Forall.
  eapply Forall_impl; [apply next_id_above|]. cbn.
  intros r Hr. destruct (N.eqb_spec (link_id r) (next_id (short_links (db w))));
    [lia|done].
Qed.

End ShortenCreation.

Lemma shorten_created_row_witness :
  exists url canonical_url cid,
    Some scenario_url = Some url
    /\ Some 1 = Some cid
    /\ canonicalize_url (fun _ => true) (fun _ => true) url = Ok canonical_url
    /\ [mkShortLink 1 example_url (Some scenario_code) (Some 1) 0]
       = [] ++ [mkShortLink (next_id []) canonical_url (Some scenario_code)
                            (Some cid) 0]
    /\ [example_campaign] = [example_campaign]
    /\ (∅ : cache) = ∅
    /\ (∅ : gmap (list N) (gmap (list byte) Z)) = ∅
    /\ (@nil (list N * request_data)) = [].
Proof.
  apply (shorten_created_row (lit "secret") ∅ (fun _ => true) (fun _ => true)
           (fun u => u) (fun _ => true) 10
           (mkWorld (mkDatabase [example_campaign] [] [] []) ∅ ∅ [])
           (mkWorld (mkDatabase [example_campaign]
                       [mkShortLink 1 example_url (Some scenario_code) (Some 1) 0]
                       [] []) ∅ ∅ [])
           (mkShorten (Some scenario_url) (Some 1)) scenario_code).
  vm_compute. reflexivity.
Defined.

(** ** The click pipeline (urlshortener/tasks.py) *)

Section PipelineFurther.

Variable environ : gmap string (list N).
Variable zlib_compress : bytes -> bytes.
Variable zlib_decompress : bytes -> result bytes.

(** The field of the hash that [log_click] increments for [url]. *)
Definition click_field (url_bytes : bytes) : bytes :=
  urlsafe_b64encode (zlib_compress url_bytes).

Lemma log_click_counted (w : world) (url ua : str) (r : request_data)
    (url_bytes : bytes) :
  HTTP_USER_AGENT r = Some ua ->
  str_encode url = Ok url_bytes ->
  redis (log_click zlib_compress w url r).2
  = hincrby (redis w) REDIS_CLICK_KEY (click_field url_bytes) 1.
Proof.
  intros Hua He. unfold log_click, compress_url. rewrite Hua, He. cbn [rbind].
  rewrite bytes_decode_ascii by apply ascii_bytes_urlsafe_b64encode.
  cbn [rbind].
  rewrite str_encode_ascii by apply ascii_bytes_urlsafe_b64encode.
  reflexivity.
Qed.

Lemma log_clicks_counter (n : nat) (w : world) (url ua : str) (r : request_data)
    (url_bytes : bytes) (m : Z) :
  HTTP_USER_AGENT r = Some ua ->
  str_encode url = Ok url_bytes ->
  redis w !! REDIS_CLICK_KEY = Some {[ click_field url_bytes := m ]} ->
  redis (log_clicks zlib_compress n w url r) !! REDIS_CLICK_KEY
  = Some {[ click_field url_bytes := (m + Z.of_nat n)%Z ]}.
Proof.
  intros Hua He. revert w m. induction n as [|n IH]; intros w m Hr.
  - cbn [log_clicks]. rewrite Hr.
    by replace (m + Z.of_nat 0)%Z with m by lia.
  - cbn [log_clicks]. rewrite (IH _ (m + 1)%Z).
    + by replace (m + 1 + Z.of_nat n)%Z with (m + Z.of_nat (S n))%Z by lia.
    + rewrite (log_click_counted _ _ _ _ _ Hua He). unfold hincrby, hgetall.
      rewrite Hr, lookup_insert_eq, lookup_singleton_eq.
      by rewrite insert_singleton_eq.
Qed.

Lemma log_clicks_first (n : nat) (w : world) (url ua : str) (r : request_data)
    (url_bytes : bytes) :
  HTTP_USER_AGENT r = Some ua ->
  str_encode url = Ok url_bytes ->
  redis w !! REDIS_CLICK_KEY = None ->
  redis (log_clicks zlib_compress (S n) w url r) !! REDIS_CLICK_KEY
  = Some {[ click_field url_bytes := Z.of_nat (S n) ]}.
Proof.
  intros Hua He Hr. cbn [log_clicks].
  rewrite (log_clicks_counter n _ url ua r url_bytes 1 Hua He).
  - by replace (1 + Z.of_nat n)%Z with (Z.of_nat (S n)) by lia.
  - rewrite (log_click_counted _ _ _ _ _ Hua He). unfold hincrby, hgetall.
    rewrite Hr, lookup_insert_eq, lookup_empty. by rewrite insert_empty.
Qed.

End PipelineFurther.

(** The rows keep everything but their click count. *)
Definition link_identity (l : ShortLink) : N * str * option str * option N :=
  (link_id l, original_url l, short_code l, link_campaign l).

Lemma add_clicks_identity (url : str) (count : Z) (links : list ShortLink) :
  map link_identity (add_clicks url count links) = map link_identity links.
Proof.
  unfold add_clicks. rewrite map_map. apply map_ext.
  intros l. by destruct (str_eqb (original_url l) url).
Qed.

(** [b] has at least the clicks of [a]. *)
Definition clicks_le (a b : ShortLink) : Prop := (click_count a <= click_count b)%Z.

#[local] Instance clicks_le_preorder : PreOrder clicks_le.
Proof. split; unfold clicks_le; [intros a; lia|intros a b c; lia]. Qed.

Lemma add_clicks_monotone (url : str) (count : Z) (links : list ShortLink) :
  (0 <= count)%Z ->
  Forall2 clicks_le links (add_clicks url count links).
Proof.
  intros Hc. unfold add_clicks. induction links as [|l links IH]; [constructor|].
  cbn [map]. constructor; [|done].
  unfold clicks_le. destruct (str_eqb (original_url l) url); cbn; lia.
Qed.

Section Reconcile.

Variable environ : gmap string (list N).
Variable zlib_compress : bytes -> bytes.
Variable zlib_decompress : bytes -> result bytes.

Local Abbreviation reconcile := (count_log_click environ zlib_decompress).

Lemma apply_click_data_identity (items : list (bytes * Z))
    (links links' : list ShortLink) :
  apply_click_data zlib_decompress items links = Ok links' ->
  map link_identity links' = map link_identity links.
Proof.
  revert links. induction items as [|[field count] items IH]; intros links.
  - cbn. by intros [= <-].
  - cbn [apply_click_data].
    destruct (bytes_decode field) as [c|]; [|done]. cbn [rbind].
    destruct (decompress_url zlib_decompress c) as [url|]; [|done]. cbn [rbind].
    destruct (bool_decide (url = [])); [by apply IH|].
    intros H%IH. by rewrite H, add_clicks_identity.
Qed.

Lemma apply_click_data_monotone (items : list (bytes * Z))
    (links links' : list ShortLink) :
  Forall (fun kv => (0 <= kv.2)%Z) items ->
  apply_click_data zlib_decompress items links = Ok links' ->
  Forall2 clicks_le links links'.
Proof.
  intros Hpos. revert links.
  induction Hpos as [|[field count] items Hc _ IH]; intros links.
  - cbn. by intros [= <-].
  - cbn [apply_click_data].
    destruct (bytes_decode field) as [c|]; [|done]. cbn [rbind].
    destruct (decompress_url zlib_decompress c) as [url|]; [|done]. cbn [rbind].
    destruct (bool_decide (url = [])); [by apply IH|].
    intros H%IH. cbn in Hc.
    by etransitivity; [apply (add_clicks_monotone url count links Hc)|].
Qed.

(** A hash with one counter: the rows of its URL get the count and the
    hash is deleted. *)
Lemma count_log_click_single (w : world) (field : bytes) (count : Z)
    (c url : str) :
  redis w !! getenv environ "REDIS_CLICK_KEY" (lit "click_count")
  = Some {[ field := count ]} ->
  bytes_decode field = Ok c ->
  decompress_url zlib_decompress c = Ok url ->
  url <> [] ->
  reconcile w
  = (true,
     set_redis
       (set_db w (set_short_links (db w)
                    (add_clicks url count (short_links (db w)))))
       (delete (getenv environ "REDIS_CLICK_KEY" (lit "click_count"))
               (redis w))).
Proof.
  intros Hr Hf Hd Hu. unfold count_log_click, hgetall. rewrite Hr.
  rewrite bool_decide_eq_false_2 by apply map_non_empty_singleton.
  rewrite map_to_list_singleton. cbn [apply_click_data].
  rewrite Hf. cbn [rbind]. rewrite Hd. cbn [rbind].
  by rewrite bool_decide_eq_false_2.
Qed.

(** X15. The job is all or nothing: when [count_log_click] returns [False]
    (no data, or an entry that cannot be decoded), no row has been
    updated and the hash has not been deleted; the state is as before. *)
Theorem count_log_click_false_unchanged (w : world) :
  (reconcile w).1 = false -> (reconcile w).2 = w.
Proof.
  unfold count_log_click.
  destruct (bool_decide _); [done|].
  by destruct (apply_click_data _ _ _).
Qed.

(** X16. The job drains the accumulator: after a run that returned [True]
    the hash is gone, and a second run finds nothing, returns [False] and
    changes nothing; no click is counted twice. *)
Theorem count_log_click_drains (w : world) :
  (reconcile w).1 = true ->
  reconcile (reconcile w).2 = (false, (reconcile w).2).
Proof.
  unfold count_log_click at 1 3 4.
  destruct (bool_decide _) eqn:He; [done|].
  destruct (apply_click_data _ _ _) as [links|]; [|done]. intros _. cbn [snd].
  unfold count_log_click, hgetall. cbn [redis set_redis].
  rewrite lookup_delete_eq. by rewrite bool_decide_eq_true_2.
Qed.

(** X17. The job touches nothing but click counts: whatever the hash
    holds, the rows of the table keep their number, order, primary keys,
    URLs, codes and campaigns. *)
Theorem count_log_click_identity (w : world) :
  map link_identity (short_links (db (reconcile w).2))
  = map link_identity (short_links (db w)).
Proof.
  unfold count_log_click.
  destruct (bool_decide _); [done|].
  destruct (apply_click_data _ _ _) as [links|] eqn:Ha; [|done].
  cbn. by apply apply_click_data_identity in Ha.
Qed.

(** X18. Click counts never go down: when no counter of the hash is
    negative, every row has at least the count it had before the run. *)
Theorem count_log_click_monotone (w : world) :
  map_Forall (fun _ count => (0 <= count)%Z)
             (hgetall (redis w) (getenv environ "REDIS_CLICK_KEY" (lit "click_count"))) ->
  Forall2 clicks_le (short_links (db w)) (short_links (db (reconcile w).2)).
Proof.
  intros Hpos. unfold count_log_click.
  destruct (bool_decide _); [done|].
  destruct (apply_click_data _ _ _) as [links|] eqn:Ha; [|done].
  cbn. eapply apply_click_data_monotone; [|exact Ha].
  apply Forall_lookup. intros i [k v] Hin.
  apply list_elem_of_lookup_2, elem_of_map_to_list in Hin.
  by apply (Hpos k v).
Qed.

End Reconcile.

(** A state in which the hash read by the job (no [REDIS_CLICK_KEY] in
    the environment) holds three clicks for [example_url]. *)
Definition counted_field : bytes := blit "eJxodHRwczovL2V4YW1wbGUuY29tL2E=".

Definition counted_world : world :=
  mkWorld example_database ∅ {[ lit "click_count" := {[ counted_field := 3%Z ]} ]} [].

Lemma counted_world_reconciled :
  count_log_click ∅ stored_decompress counted_world
  = (true,
     mkWorld (mkDatabase [example_campaign]
                [mkShortLink 1 example_url (Some example_code) (Some 1) 3] [] [])
             ∅ (delete (lit "click_count") (redis counted_world)) []).
Proof.
  rewrite (count_log_click_single ∅ stored_decompress counted_world
             counted_field 3 (lit "eJxodHRwczovL2V4YW1wbGUuY29tL2E=") example_url).
  - reflexivity.
  - apply lookup_singleton_eq.
  - vm_compute. reflexivity.
  - vm_compute. reflexivity.
  - discriminate.
Qed.

Lemma count_log_click_false_unchanged_witness :
  (count_log_click ∅ stored_decompress empty_world).2 = empty_world.
Proof.
  apply (count_log_click_false_unchanged ∅ stored_decompress empty_world).
  reflexivity.
Defined.

Lemma count_log_click_drains_witness :
  count_log_click ∅ stored_decompress
    (count_log_click ∅ stored_decompress counted_world).2
  = (false, (count_log_click ∅ stored_decompress counted_world).2).
Proof.
  apply (count_log_click_drains ∅ stored_decompress counted_world).
  rewrite counted_world_reconciled. reflexivity.
Defined.

Lemma count_log_click_monotone_witness :
  Forall2 clicks_le (short_links (db counted_world))
          (short_links (db (count_log_click ∅ stored_decompress counted_world).2)).
Proof.
  apply (count_log_click_monotone ∅ stored_decompress counted_world).
  unfold hgetall. change (getenv ∅ "REDIS_CLICK_KEY" (lit "click_count"))
    with (lit "click_count").
  unfold counted_world. cbn [redis]. rewrite lookup_singleton_eq.
  apply map_Forall_singleton. lia.
Defined.

(** ** Clicks and reconciliation together *)

Section CountedClicks.

Variable environ : gmap string (list N).
Variable zlib_compress : bytes -> bytes.
Variable zlib_decompress : bytes -> result bytes.

(** X19. With [REDIS_CLICK_KEY] set in the environment to the name that
    [log_click] uses, the pipeline counts: after [n + 1] clicks on a
    non-empty URL from a client that sends a User-Agent, starting without
    the hash, one run of the job returns [True], adds exactly [n + 1] to
    the click count of the rows of that URL (and nothing to the others),
    and removes the hash. *)
Theorem clicks_counted_with_matching_key (n : nat) (w : world)
    (url ua : str) (r : request_data) (url_bytes : bytes) :
  (forall b, zlib_decompress (zlib_compress b) = Ok b) ->
  environ !! "REDIS_CLICK_KEY"%string = Some REDIS_CLICK_KEY ->
  HTTP_USER_AGENT r = Some ua ->
  str_encode url = Ok url_bytes ->
  url <> [] ->
  redis w !! REDIS_CLICK_KEY = None ->
  let w1 := log_clicks zlib_compress (S n) w url r in
  let w2 := (count_log_click environ zlib_decompress w1).2 in
  (count_log_click environ zlib_decompress w1).1 = true
  /\ short_links (db w2)
     = add_clicks url (Z.of_nat (S n)) (short_links (db w))
  /\ redis w2 !! REDIS_CLICK_KEY = None.
Proof.
  intros Hz Henv Hua He Hu Hr w1 w2. unfold w2.
  assert (Hkey : getenv environ "REDIS_CLICK_KEY" (lit "click_count")
                 = REDIS_CLICK_KEY)
    by (unfold getenv; by rewrite Henv).
  rewrite (count_log_click_single environ zlib_decompress w1
             (click_field zlib_compress url_bytes) (Z.of_nat (S n))
             (map Byte.to_N (click_field zlib_compress url_bytes)) url).
  - cbn [fst snd]. split; [done|]. split.
    + cbn [db set_redis set_db set_short_links short_links].
      unfold w1. by rewrite log_clicks_short_links.
    + cbn [redis set_redis]. rewrite Hkey. apply lookup_delete_eq.
  - rewrite Hkey. unfold w1. by apply (log_clicks_first _ n w url ua r).
  - apply bytes_decode_ascii, ascii_bytes_urlsafe_b64encode.
  - apply (decompress_url_compressed zlib_compress zlib_decompress Hz).
    unfold compress_url. rewrite He. cbn [rbind].
    apply bytes_decode_ascii, ascii_bytes_urlsafe_b64encode.
  - done.
Qed.

(** X20. A click from a client that sends no User-Agent header is neither
    logged nor counted: [user_agent[:255]] raises [TypeError] on [None]
    before the [ClickLog] row is created, and any number of such tasks
    leaves the database, the cache and Redis as they were. *)
Theorem log_click_without_user_agent (n : nat) (w : world) (url : str)
    (r : request_data) :
  HTTP_USER_AGENT r = None ->
  (exists msg, (log_click zlib_compress w url r).1 = Raise (TypeError msg))
  /\ log_clicks zlib_compress n w url r = w.
Proof.
  intros Hua. split.
  - unfold log_click. rewrite Hua. by eexists.
  - induction n as [|n IH]; [done|].
    cbn [log_clicks]. unfold log_click at 1. by rewrite Hua.
Qed.

End CountedClicks.

Lemma clicks_counted_with_matching_key_witness :
  let environ : gmap string (list N) :=
    {[ "REDIS_CLICK_KEY"%string := REDIS_CLICK_KEY ]} in
  let w := mkWorld example_database ∅ ∅ [] in
  let w1 := log_clicks stored_compress 3 w example_url example_request in
  let w2 := (count_log_click environ stored_decompress w1).2 in
  (count_log_click environ stored_decompress w1).1 = true
  /\ short_links (db w2)
     = [mkShortLink 1 example_url (Some example_code) (Some 1) 3]
  /\ redis w2 !! REDIS_CLICK_KEY = None.
Proof.
  intros environ w.
  apply (clicks_counted_with_matching_key environ stored_compress
           stored_decompress 2 w example_url (lit "curl/8") example_request
           (blit "https://example.com/a")).
  - reflexivity.
  - apply lookup_singleton_eq.
  - reflexivity.
  - vm_compute. reflexivity.
  - discriminate.
  - reflexivity.
Defined.

Lemma log_click_without_user_agent_witness :
  let r := mkRequest (Some (lit "10.0.0.1")) None None in
  (exists msg, (log_click stored_compress empty_world example_url r).1
               = Raise (TypeError msg))
  /\ log_clicks stored_compress 3 empty_world example_url r = empty_world.
Proof.
  intros r.
  apply (log_click_without_user_agent stored_compress 3 empty_world example_url r).
  reflexivity.
Defined.

(** ** Warming the cache (urlshortener/tasks.py, [cache_popular_urls]) *)

(** The loop of [cache_popular_urls] on the cache alone. *)
Definition cache_all (items : list (option str * str)) (c : cache) : cache :=
  fold_left
    (fun c '(short_code, original_url) =>
       cache_set c (lit "short_link_" ++ format_opt short_code)
                 (VStr original_url) (3600 * 24))
    items c.

Lemma cache_popular_urls_eq (w : world) :
  cache_popular_urls w
  = set_cache w (cache_all (popular_links (short_links (db w))) (the_cache w)).
Proof.
  unfold cache_popular_urls, cache_all.
  generalize (popular_links (short_links (db w))) as items.
  intros items. rewrite <- (set_cache_same w) at 1.
  generalize (the_cache w) as c. revert w.
  induction items as [|[sc u] items IH]; intros w c; [done|].
  cbn [fold_left]. cbn [the_cache set_cache].
  by rewrite <- IH.
Qed.

Lemma elem_of_popular_links (links : list ShortLink) (sc : option str) (u : str) :
  (sc, u) ∈ popular_links links
  <-> exists l, l ∈ links /\ (30 <= click_count l)%Z
                /\ short_code l = sc /\ original_url l = u.
Proof.
  unfold popular_links. rewrite list_elem_of_fmap. split.
  - intros (l & [= -> ->] & Hl). exists l.
    apply list_elem_of_In, filter_In in Hl as [Hl Hc].
    apply list_elem_of_In in Hl. split; [done|]. split; [lia|done].
  - intros (l & Hl & Hc & <- & <-). exists l. split; [done|].
    apply list_elem_of_In, filter_In. split; [by apply list_elem_of_In|lia].
Qed.

Lemma cache_all_lookup_other (k : str) (items : list (option str * str))
    (c : cache) :
  (forall sc u, (sc, u) ∈ items -> lit "short_link_" ++ format_opt sc <> k) ->
  cache_all items c !! k = c !! k.
Proof.
  revert c. induction items as [|[sc u] items IH]; intros c Hk; [done|].
  cbn [cache_all fold_left]. fold (cache_all items).
  rewrite IH.
  - unfold cache_set. apply lookup_insert_ne, (Hk sc u). left.
  - intros sc' u' Hin. apply (Hk sc' u'). by right.
Qed.

Lemma cache_all_lookup (k u : str) (items : list (option str * str))
    (c : cache) :
  (forall sc u', (sc, u') ∈ items ->
                 lit "short_link_" ++ format_opt sc = k -> u' = u) ->
  c !! k = Some (VStr u, 3600 * 24)
  \/ (exists sc, (sc, u) ∈ items /\ lit "short_link_" ++ format_opt sc = k) ->
  cache_all items c !! k = Some (VStr u, 3600 * 24).
Proof.
  revert c. induction items as [|[sc u'] items IH]; intros c Hu Hc.
  - destruct Hc as [Hc|(sc & Hin & _)]; [done|]. by apply elem_of_nil in Hin.
  - cbn [cache_all fold_left]. fold (cache_all items). apply IH.
    + intros sc' u'' Hin. apply (Hu sc' u''). by right.
    + unfold cache_set.
      destruct (decide (lit "short_link_" ++ format_opt sc = k)) as [Hk|Hk].
      * left. rewrite <- Hk at 1. rewrite lookup_insert_eq.
        by rewrite (Hu sc u' ltac:(left) Hk).
      * rewrite lookup_insert_ne by done.
        destruct Hc as [Hc|(sc' & Hin & Hk')]; [by left|].
        apply elem_of_cons in Hin as [[= -> ->]|Hin]; [done|].
        right. by exists sc'.
Qed.

(** The destination that the loop leaves under [k]: that of the last
    item with this key. *)
Definition last_cached (k : str) (items : list (option str * str))
    (acc : option str) : option str :=
  fold_left
    (fun acc '(short_code, original_url) =>
       if decide (lit "short_link_" ++ format_opt short_code = k)
       then Some original_url else acc)
    items acc.

Lemma last_cached_cons (k : str) (sc : option str) (u : str)
    (items : list (option str * str)) (acc : option str) :
  last_cached k ((sc, u) :: items) acc
  = last_cached k items
      (if decide (lit "short_link_" ++ format_opt sc = k) then Some u else acc).
Proof. reflexivity. Qed.

Lemma cache_all_cons (sc : option str) (u : str)
    (items : list (option str * str)) (c : cache) :
  cache_all ((sc, u) :: items) c
  = cache_all items
      (cache_set c (lit "short_link_" ++ format_opt sc) (VStr u) (3600 * 24)).
Proof. reflexivity. Qed.

Lemma last_cached_acc (k : str) (items : list (option str * str))
    (acc : option str) :
  last_cached k items acc
  = match last_cached k items None with
    | Some u => Some u
    | None => acc
    end.
Proof.
  revert acc. induction items as [|[sc u] items IH]; intros acc; [done|].
  rewrite !last_cached_cons.
  destruct (decide (lit "short_link_" ++ format_opt sc = k)).
  - rewrite (IH (Some u)). by destruct (last_cached k items None).
  - apply IH.
Qed.

Lemma cache_all_last_cached (k : str) (items : list (option str * str))
    (c : cache) :
  cache_all items c !! k
  = match last_cached k items None with
    | Some u => Some (VStr u, 3600 * 24)
    | None => c !! k
    end.
Proof.
  revert c. induction items as [|[sc u] items IH]; intros c; [done|].
  rewrite cache_all_cons, last_cached_cons, IH.
  unfold cache_set.
  destruct (decide (lit "short_link_" ++ format_opt sc = k)) as [Hk|Hk].
  - rewrite (last_cached_acc k items (Some u)).
    destruct (last_cached k items None); [done|].
    rewrite <- Hk. apply lookup_insert_eq.
  - destruct (last_cached k items None); [done|].
    by apply lookup_insert_ne.
Qed.

Lemma cache_popular_urls_db (w : world) : db (cache_popular_urls w) = db w.
Proof. by rewrite cache_popular_urls_eq. Qed.

(** X21. After [cache_popular_urls], the code of every row with at least
    30 clicks is cached with the row's stored URL for 86400 seconds,
    provided the popular rows that bear this code agree on the URL
    ([short_code] is not a unique column). *)
Theorem cache_popular_urls_caches (w : world) (l : ShortLink) :
  l ∈ short_links (db w) ->
  (30 <= click_count l)%Z ->
  (forall l', l' ∈ short_links (db w) -> (30 <= click_count l')%Z ->
              format_opt (short_code l') = format_opt (short_code l) ->
              original_url l' = original_url l) ->
  the_cache (cache_popular_urls w)
    !! (lit "short_link_" ++ format_opt (short_code l))
  = Some (VStr (original_url l), 86400).
Proof.
  intros Hl Hc Hu. rewrite cache_popular_urls_eq. cbn [the_cache set_cache].
  apply cache_all_lookup.
  - intros sc u' (l' & Hl' & Hc' & <- & <-)%elem_of_popular_links Hk.
    apply app_inv_head in Hk. by apply Hu.
  - right. exists (short_code l). split; [|done].
    apply elem_of_popular_links. by exists l.
Qed.

(** X22. The job writes nothing else: a cache key that is not
    [short_link_<code>] for the code of a row with at least 30 clicks
    keeps its entry, and the database, Redis and the task queue are as
    before. *)
Theorem cache_popular_urls_other_keys (w : world) (k : str) :
  (forall l, l ∈ short_links (db w) -> (30 <= click_count l)%Z ->
             lit "short_link_" ++ format_opt (short_code l) <> k) ->
  the_cache (cache_popular_urls w) !! k = the_cache w !! k
  /\ db (cache_popular_urls w) = db w
  /\ redis (cache_popular_urls w) = redis w
  /\ queue (cache_popular_urls w) = queue w.
Proof.
  intros Hk. rewrite cache_popular_urls_eq. cbn [the_cache set_cache].
  split; [|done]. apply cache_all_lookup_other.
  intros sc u (l & Hl & Hc & <- & _)%elem_of_popular_links. by apply Hk.
Qed.



(** X24. Running the job twice in a row is the same as running it once. *)
Theorem cache_popular_urls_idempotent (w : world) :
  cache_popular_urls (cache_popular_urls w) = cache_popular_urls w.
Proof.
  rewrite (cache_popular_urls_eq (cache_popular_urls w)).
  rewrite cache_popular_urls_db. rewrite cache_popular_urls_eq.
  unfold set_cache. cbn [db the_cache redis queue]. f_equal.
  apply map_eq. intros k. rewrite !cache_all_last_cached.
  by destruct (last_cached k _ None).
Qed.

(** A table with a popular row, whose code is not a signed code, and a
    row below the threshold. *)
Definition popular_row : ShortLink :=
  mkShortLink 1 example_url (Some (lit "x")) (Some 1) 30.

Definition popular_world : world :=
  mkWorld (mkDatabase [example_campaign]
             [popular_row;
              mkShortLink 2 (lit "https://example.com/b") (Some (lit "y")) (Some 1) 29]
             [] [])
          ∅ ∅ [].

Lemma popular_world_agree (l' : ShortLink) :
  l' ∈ short_links (db popular_world) -> (30 <= click_count l')%Z ->
  original_url l' = original_url popular_row.
Proof.
  intros Hl Hc. cbn in Hl.
  apply elem_of_cons in Hl as [->|Hl]; [done|].
  apply list_elem_of_singleton in Hl as ->. cbn in Hc. lia.
Qed.

Lemma cache_popular_urls_caches_witness :
  the_cache (cache_popular_urls popular_world) !! (lit "short_link_" ++ lit "x")
  = Some (VStr example_url, 86400).
Proof.
  apply (cache_popular_urls_caches popular_world popular_row).
  - left.
  - reflexivity.
  - intros l' Hl Hc _. by apply popular_world_agree.
Defined.

Lemma cache_popular_urls_other_keys_witness :
  the_cache (cache_popular_urls popular_world) !! (lit "short_link_" ++ lit "y")
  = None
  /\ db (cache_popular_urls popular_world) = db popular_world
  /\ redis (cache_popular_urls popular_world) = redis popular_world
  /\ queue (cache_popular_urls popular_world) = queue popular_world.
Proof.
  apply (cache_popular_urls_other_keys popular_world (lit "short_link_" ++ lit "y")).
  intros l Hl Hc. cbn in Hl.
  apply elem_of_cons in Hl as [->|Hl]; [discriminate|].
  apply list_elem_of_singleton in Hl as ->. cbn in Hc. lia.
Defined.


(** ** Signatures are hexadecimal (urlshortener/models.py) *)

(** The characters of [hexdigest()]. *)
Definition is_hex_char (c : N) : bool :=
  ((48 <=? c) && (c <=? 57)) || ((97 <=? c) && (c <=? 102)).

Lemma hex_digit_hex (d : N) : d < 16 -> is_hex_char (SHA256.hex_digit d) = true.
Proof.
  apply (N_forall_below 16 (fun d => is_hex_char (SHA256.hex_digit d))).
  vm_compute. reflexivity.
Qed.

Lemma hex_is_hex (bs : bytes) : Forall (fun c => is_hex_char c = true) (SHA256.hex bs).
Proof.
  induction bs as [|b r IH]; cbn [SHA256.hex]; [constructor|].
  pose proof (to_N_lt b).
  constructor; [apply hex_digit_hex; div_mod_lia|].
  constructor; [apply hex_digit_hex; div_mod_lia|done].
Qed.

Lemma decode_short_code_signature (SECRET_KEY short_code url : str) :
  decode_short_code SECRET_KEY short_code = Ok url ->
  (4 < length short_code)%nat
  /\ Forall (fun c => is_hex_char c = true)
            (drop (length short_code - 4) short_code).
Proof.
  unfold decode_short_code.
  destruct (Nat.leb_spec (length short_code) 4) as [|Hlen]; [done|].
  unfold signature_of.
  destruct (str_encode SECRET_KEY) as [key|]; [|done].
  destruct (str_encode (take _ short_code)) as [msg|]; [|done].
  cbn [rbind]. unfold str_eqb.
  destruct (decide (drop (length short_code - 4) short_code
                    = take 4 (SHA256.hmac_hexdigest key msg))) as [Heq|Hne].
  - intros _. split; [done|]. rewrite Heq. apply Forall_take, hex_is_hex.
  - by rewrite bool_decide_eq_false_2.
Qed.

(** X25. [decode_short_code] accepts a code only if it has more than four
    characters and its last four are lowercase hexadecimal digits,
    whatever the secret key: every other string is rejected. *)
Theorem decode_short_code_hex_signature (SECRET_KEY short_code url : str) :
  decode_short_code SECRET_KEY short_code = Ok url ->
  (4 < length short_code)%nat
  /\ Forall (fun c => is_hex_char c = true)
            (drop (length short_code - 4) short_code).
Proof. apply decode_short_code_signature. Qed.

Lemma decode_short_code_hex_signature_witness :
  (4 < length example_code)%nat
  /\ Forall (fun c => is_hex_char c = true)
            (drop (length example_code - 4) example_code).
Proof.
  apply (decode_short_code_hex_signature (lit "secret") example_code example_url).
  vm_compute. reflexivity.
Defined.

(** ** The routes (urlshortener/urls.py) *)

Lemma match_str_slash_add_links :
  match_str_slash (lit "add_links/") = Some (lit "add_links").
Proof. reflexivity. Qed.

(** X26. No request path is routed to [AddLinkApi]: its route
    [add_links/] comes after [<str:short_code>/], which matches that path
    first, so the path of the import view is given to the redirect view
    with the short code [add_links]. *)
Theorem add_links_route_shadowed (path : str) :
  resolve path <> Some AddLinkApi_view
  /\ resolve (lit "add_links/") = Some (RedirectView_view (lit "add_links")).
Proof.
  split; [|reflexivity].
  unfold resolve, urlpatterns. cbn [resolve_in].
  destruct (str_eqb path (lit "shorten/")); [done|].
  destruct (match_prefix (lit "report/") path) as [rest|]; cbn [mbind option_bind].
  - destruct (match_str_slash rest); cbn [mbind option_bind]; [done|].
    destruct (match_str_slash path) eqn:Hm; cbn [mbind option_bind]; [done|].
    unfold str_eqb. case_bool_decide as Hp; [|done].
    by rewrite Hp, match_str_slash_add_links in Hm.
  - destruct (match_str_slash path) eqn:Hm; cbn [mbind option_bind]; [done|].
    unfold str_eqb. case_bool_decide as Hp; [|done].
    by rewrite Hp, match_str_slash_add_links in Hm.
Qed.



(** ** The import (urlshortener/add.py, [AddLinkApi.get]) *)

Lemma find_app_new {A : Type} (f : A -> bool) (l : list A) (x : A) :
  List.find f l = None -> f x = true -> List.find f (l ++ [x]) = Some x.
Proof.
  intros Hl Hx. induction l as [|y l IH]; cbn [List.find app] in *.
  - by rewrite Hx.
  - destruct (f y); [done|by apply IH].
Qed.

Section ImportFacts.

Variable SECRET_KEY : str.
Variable unquote : str -> str.
Variable URLValidator : str -> bool.

Local Abbreviation import := (import_links SECRET_KEY unquote URLValidator).
Local Abbreviation import_file :=
  (extract_links_data_to_models SECRET_KEY unquote URLValidator).

(** A row as the import creates it. *)
Definition imported_row (links : list str) (campaign : Campaign)
    (l : ShortLink) : Prop :=
  original_url l ∈ links
  /\ is_valid_url unquote URLValidator (Some (original_url l)) = true
  /\ link_campaign l = Some (campaign_id campaign)
  /\ click_count l = 0%Z
  /\ exists code,
       short_code l = Some code
       /\ decode_short_code SECRET_KEY code = Ok (original_url l).

Lemma ShortLink_create_inv (d d' : database) (url : str) (campaign : Campaign)
    (l : ShortLink) :
  ShortLink_create SECRET_KEY d url campaign = Ok (l, d') ->
  exists code,
    generate_short_code SECRET_KEY url = Ok code
    /\ l = mkShortLink (next_id (short_links d)) url (Some code)
                       (Some (campaign_id campaign)) 0
    /\ d' = set_short_links d (short_links d ++ [l]).
Proof.
  unfold ShortLink_create, ShortLink_save_code.
  cbn [short_code original_url link_id link_campaign click_count].
  destruct (generate_short_code SECRET_KEY url) as [code|]; [|done].
  cbn [rbind]. intros [= <- <-]. by exists code.
Qed.

Lemma is_valid_url_nonempty (u : str) :
  is_valid_url unquote URLValidator (Some u) = true -> u <> [].
Proof. intros H ->. by cbn in H. Qed.

Lemma import_links_rows (links all : list str) (campaign : Campaign)
    (d : database) :
  links ⊆ all ->
  exists new,
    short_links (import links campaign d).2 = short_links d ++ new
    /\ campaigns (import links campaign d).2 = campaigns d
    /\ click_logs (import links campaign d).2 = click_logs d
    /\ blocked_ips (import links campaign d).2 = blocked_ips d
    /\ Forall (imported_row all campaign) new.
Proof.
  revert d. induction links as [|link rest IH]; intros d Hsub.
  { exists []. by rewrite app_nil_r. }
  assert (rest ⊆ all) as Hrest by (intros u Hu; apply Hsub; by right).
  cbn [import_links].
  destruct (is_valid_url unquote URLValidator (Some link)) eqn:Hv; [|by apply IH].
  unfold ShortLink_get_or_create.
  destruct (matching_links d link campaign) as [|l [|l2 more]].
  - destruct (ShortLink_create SECRET_KEY d link campaign) as [[l d1]|e] eqn:Hc.
    + apply ShortLink_create_inv in Hc as (code & Hg & Hl & ->).
      destruct (IH (set_short_links d (short_links d ++ [l])) Hrest)
        as (new & H1 & H2 & H3 & H4 & H5).
      exists (l :: new). rewrite H1, H2, H3, H4.
      cbn [short_links campaigns click_logs blocked_ips set_short_links].
      rewrite <- app_assoc. split_and!; try done.
      constructor; [|done]. subst l. unfold imported_row.
      cbn [original_url link_campaign click_count short_code].
      split_and!; try done.
      * apply Hsub. left.
      * exists code. split; [done|].
        apply decode_short_code_generated; [|done].
        by apply is_valid_url_nonempty.
    + exists []. by rewrite app_nil_r.
  - by apply IH.
  - exists []. by rewrite app_nil_r.
Qed.

Lemma Campaign_get_or_create_name (d : database) (name : str) :
  campaign_name (Campaign_get_or_create d name).1 = name
  /\ (Campaign_get_or_create d name).1 ∈ campaigns (Campaign_get_or_create d name).2
  /\ short_links (Campaign_get_or_create d name).2 = short_links d.
Proof.
  unfold Campaign_get_or_create.
  destruct (List.find _ (campaigns d)) as [c|] eqn:Hf; cbn.
  - apply List.find_some in Hf as [Hin Hn]. unfold str_eqb in Hn.
    apply bool_decide_eq_true in Hn. by apply list_elem_of_In in Hin.
  - split_and!; [done| |done]. apply elem_of_app. right. left.
Qed.

(** X28. The rows that the import adds: the table of links grows at its
    end only, and every new row holds a link of the file as it was given
    (not its canonical form), accepted by [is_valid_url], in the campaign
    named Digikala, with no clicks and with a code that
    [decode_short_code] decodes to the stored URL. This holds also when
    the import stops at an exception. *)
Theorem import_rows_decodable (links : list str) (d : database) :
  exists campaign new,
    campaign_name campaign = lit "Digikala"
    /\ campaign ∈ campaigns (import_file links d).2
    /\ short_links (import_file links d).2 = short_links d ++ new
    /\ Forall (imported_row links campaign) new.
Proof.
  unfold extract_links_data_to_models.
  pose proof (Campaign_get_or_create_name d (lit "Digikala")) as (Hn & Hin & Hs).
  destruct (Campaign_get_or_create d (lit "Digikala")) as [campaign d0].
  cbn [fst snd] in *.
  destruct (import_links_rows links links campaign d0) as (new & H1 & H2 & _ & _ & H5);
    [done|].
  exists campaign, new. by rewrite H1, H2, Hs.
Qed.

Lemma matching_links_created (d : database) (l : ShortLink) (u : str)
    (campaign : Campaign) :
  matching_links (set_short_links d (short_links d ++ [l])) u campaign
  = matching_links d u campaign
    ++ (if str_eqb (original_url l) u
           && bool_decide (link_campaign l = Some (campaign_id campaign))
        then [l] else []).
Proof.
  unfold matching_links. cbn [short_links set_short_links].
  by rewrite List.filter_app.
Qed.

Lemma import_links_keeps_one (links : list str) (campaign : Campaign)
    (d d' : database) (u : str) :
  import links campaign d = (None, d') ->
  length (matching_links d u campaign) = 1%nat ->
  length (matching_links d' u campaign) = 1%nat.
Proof.
  revert d. induction links as [|link rest IH]; intros d; cbn [import_links].
  { by intros [= <-]. }
  destruct (is_valid_url unquote URLValidator (Some link)); [|by apply IH].
  unfold ShortLink_get_or_create.
  destruct (matching_links d link campaign) as [|l [|l2 more]] eqn:Hm; [| |done].
  - destruct (ShortLink_create SECRET_KEY d link campaign) as [[l d1]|e] eqn:Hc;
      [|done].
    apply ShortLink_create_inv in Hc as (code & Hg & -> & ->).
    intros Hi Hu. apply (IH _ Hi). rewrite matching_links_created.
    cbn [original_url link_campaign]. unfold str_eqb.
    case_bool_decide as Hlu; [subst u; by rewrite Hm in Hu|].
    cbn [andb]. by rewrite app_nil_r.
  - apply IH.
Qed.

Lemma import_links_one_each (links : list str) (campaign : Campaign)
    (d d' : database) (u : str) :
  import links campaign d = (None, d') ->
  u ∈ links ->
  is_valid_url unquote URLValidator (Some u) = true ->
  length (matching_links d' u campaign) = 1%nat.
Proof.
  revert d. induction links as [|link rest IH]; intros d Hi Hu Hv.
  { by apply elem_of_nil in Hu. }
  cbn [import_links] in Hi.
  apply elem_of_cons in Hu as [->|Hu].
  - rewrite Hv in Hi. unfold ShortLink_get_or_create in Hi.
    destruct (matching_links d link campaign) as [|l [|l2 more]] eqn:Hm; [| |done].
    + destruct (ShortLink_create SECRET_KEY d link campaign) as [[l d1]|e] eqn:Hc;
        [|done].
      apply ShortLink_create_inv in Hc as (code & Hg & -> & ->).
      apply (import_links_keeps_one _ _ _ _ _ Hi).
      rewrite matching_links_created, Hm.
      cbn [original_url link_campaign]. unfold str_eqb.
      by rewrite !bool_decide_eq_true_2.
    + apply (import_links_keeps_one _ _ _ _ _ Hi). by rewrite Hm.
  - destruct (is_valid_url unquote URLValidator (Some link)); [|by apply (IH d)].
    unfold ShortLink_get_or_create in Hi.
    destruct (matching_links d link campaign) as [|l [|l2 more]] eqn:Hm; [| |done].
    + destruct (ShortLink_create SECRET_KEY d link campaign) as [[l d1]|e] eqn:Hc;
        [|done].
      by apply (IH d1).
    + by apply (IH d).
Qed.

Lemma import_links_nothing_new (links : list str) (campaign : Campaign)
    (d : database) :
  (forall u, u ∈ links -> is_valid_url unquote URLValidator (Some u) = true ->
             length (matching_links d u campaign) = 1%nat) ->
  import links campaign d = (None, d).
Proof.
  induction links as [|link rest IH]; intros Hone; [done|].
  cbn [import_links].
  assert (import rest campaign d = (None, d)) as Hrest
    by (apply IH; intros u Hu; apply Hone; by right).
  destruct (is_valid_url unquote URLValidator (Some link)) eqn:Hv; [|done].
  unfold ShortLink_get_or_create.
  pose proof (Hone link ltac:(left) Hv) as Hl.
  by destruct (matching_links d link campaign) as [|l [|l2 more]].
Qed.

(** X29. Importing the same file again adds nothing: after an import that
    ended without an exception, a second import of that file ends without
    one too and leaves the database as it is, whatever the table held
    before. *)
Theorem import_twice (links : list str) (d d1 : database) :
  import_file links d = (None, d1) ->
  import_file links d1 = (None, d1).
Proof.
  unfold extract_links_data_to_models.
  destruct (Campaign_get_or_create d (lit "Digikala")) as [campaign d0] eqn:Hc.
  intros Hi.
  destruct (import_links_rows links links campaign d0) as (_ & _ & H2 & _);
    [done|].
  rewrite Hi in H2. cbn [snd] in H2.
  assert (Campaign_get_or_create d1 (lit "Digikala") = (campaign, d1)) as ->.
  { unfold Campaign_get_or_create in *. rewrite H2.
    destruct (List.find _ (campaigns d)) as [c|] eqn:Hf.
    - injection Hc as <- <-. by rewrite Hf.
    - injection Hc as <- <-. cbn [campaigns].
      rewrite (find_app_new _ _ _ Hf); [done|].
      unfold str_eqb. by apply bool_decide_eq_true_2. }
  apply import_links_nothing_new. intros u Hu Hv.
  by apply (import_links_one_each links campaign d0).
Qed.

End ImportFacts.

Lemma import_twice_witness :
  extract_links_data_to_models (lit "secret") (fun u => u) (fun _ => true)
    [example_url; lit "https://example.com/b"; example_url]
    (mkDatabase [example_campaign]
       [mkShortLink 1 example_url (Some example_code) (Some 1) 0;
        mkShortLink 2 (lit "https://example.com/b")
          (Some (lit "aHR0cHM6Ly9leGFtcGxlLmNvbS9i832a")) (Some 1) 0] [] [])
  = (None,
     mkDatabase [example_campaign]
       [mkShortLink 1 example_url (Some example_code) (Some 1) 0;
        mkShortLink 2 (lit "https://example.com/b")
          (Some (lit "aHR0cHM6Ly9leGFtcGxlLmNvbS9i832a")) (Some 1) 0] [] []).
Proof.
  apply (import_twice (lit "secret") (fun u => u) (fun _ => true)
           [example_url; lit "https://example.com/b"; example_url]
           (mkDatabase [] [] [] [])).
  vm_compute. reflexivity.
Defined.
